(** * mcp-pg-metatool: named-parameter rewriting, schema validation,
      response envelopes and the saved-query lifecycle

    A shallow embedding of the TypeScript sources
    ([src/parameterMapper.ts], [src/jsonSchemaValidator.ts],
    [src/responses.ts], [src/storage.ts], [src/dynamicToolHandler.ts],
    [src/tools/*.ts]) together with the properties the specification
    states about them. *)

From Stdlib Require Import Ascii String List ZArith Lia Bool.
From stdpp Require Import base option list gmap strings pretty.

#[local] Set Warnings "-clear-no-such-hyp,-register-all".

(* ===================================================================== *)
(** * JavaScript values                                                   *)
(* ===================================================================== *)

Module Js.

(** A number.  The program never computes with the numbers that pass
    through it; it tests whether one is an integer and prints it.  A
    number is therefore an integer (within the range in which integers
    print as plain digits) or a non-integer, kept as the text JavaScript
    prints for it. *)
Inductive number : Type :=
  | Int (z : Z)
  | Frac (repr : string).

(** Values of type [unknown]: JSON values and [undefined].  An object is
    the list of its own properties in insertion order; keys are distinct. *)
Inductive value : Type :=
  | Undefined
  | Null
  | Bool (b : bool)
  | Num (n : number)
  | Str (s : string)
  | Arr (items : list value)
  | Obj (fields : list (string * value)).

Definition props : Type := list (string * value).

(** [fields[key]] of an own property, if any. *)
Fixpoint own (key : string) (fields : props) : option value :=
  match fields with
  | [] => None
  | (k, v) :: r => if String.eqb k key then Some v else own key r
  end.

(** [key in obj] for own properties. *)
Definition has_own (key : string) (fields : props) : bool :=
  match own key fields with Some _ => true | None => false end.

(** [v[key]] for a key that no prototype defines: the own property of an
    object, [undefined] otherwise.  (On [null] and [undefined] the
    access throws; callers that can meet them check first.) *)
Definition get (v : value) (key : string) : value :=
  match v with
  | Obj fields => default Undefined (own key fields)
  | _ => Undefined
  end.

(** [obj[key] = v]: replaces the value of an existing key in place, adds a
    new key at the end. *)
Fixpoint set_field (key : string) (v : value) (fields : props) : props :=
  match fields with
  | [] => [(key, v)]
  | (k, x) :: r =>
      if String.eqb k key then (k, v) :: r else (k, x) :: set_field key v r
  end.

Definition is_undefined (v : value) : bool :=
  match v with Undefined => true | _ => false end.

(** [v === null || v === undefined] *)
Definition is_nullish (v : value) : bool :=
  match v with Undefined | Null => true | _ => false end.

(** Truthiness. *)
Definition truthy (v : value) : bool :=
  match v with
  | Undefined | Null | Bool false | Num (Int 0) | Str EmptyString => false
  | _ => true
  end.

(** [typeof v] *)
Definition typeof (v : value) : string :=
  match v with
  | Undefined => "undefined"
  | Null | Arr _ | Obj _ => "object"
  | Bool _ => "boolean"
  | Num _ => "number"
  | Str _ => "string"
  end.

Definition is_integer (n : number) : bool :=
  match n with Int _ => true | Frac _ => false end.

(** SameValueZero, the equality of [Set] and [Map] keys and, on the
    primitives compared in this program, of [===].  Two arrays or objects
    met here are never the same reference. *)
Definition number_eqb (a b : number) : bool :=
  match a, b with
  | Int x, Int y => Z.eqb x y
  | Frac x, Frac y => String.eqb x y
  | _, _ => false
  end.

Definition same_value (a b : value) : bool :=
  match a, b with
  | Undefined, Undefined | Null, Null => true
  | Bool x, Bool y => Bool.eqb x y
  | Num x, Num y => number_eqb x y
  | Str x, Str y => String.eqb x y
  | _, _ => false
  end.

(** ** Errors *)

(** What a [throw] can carry: an [Error] (of some class, with its message)
    or any other value. *)
Inductive error_class : Type := EError | ETypeError | ESyntaxError.

Inductive exn : Type :=
  | JsError (cls : error_class) (message : string)
  | JsThrown (v : value).

(** [new Error(msg)], [new TypeError(msg)] *)
Definition Error (message : string) : exn := JsError EError message.
Definition TypeError (message : string) : exn := JsError ETypeError message.

(** [error instanceof Error ? error.message : 'Unknown error'] *)
Definition error_message (error : exn) : string :=
  match error with
  | JsError _ message => message
  | JsThrown _ => "Unknown error"
  end.

(** ** JSON.stringify(v, null, 2) *)

Definition hex_digit (n : nat) : ascii :=
  match n with
  | 0 => "0" | 1 => "1" | 2 => "2" | 3 => "3" | 4 => "4" | 5 => "5"
  | 6 => "6" | 7 => "7" | 8 => "8" | 9 => "9" | 10 => "a" | 11 => "b"
  | 12 => "c" | 13 => "d" | 14 => "e" | _ => "f"
  end%char.

(** The double-quote unit. *)
Definition dquote : ascii := ascii_of_nat 34.

(** One unit of a quoted string. *)
Definition quote_unit (c : ascii) : string :=
  let n := nat_of_ascii c in
  if Ascii.eqb c dquote then String "\" (String dquote EmptyString)
  else if Ascii.eqb c "\"%char then String "\" (String "\" EmptyString)
  else if (n =? 8)%nat then String "\" (String "b" EmptyString)
  else if (n =? 9)%nat then String "\" (String "t" EmptyString)
  else if (n =? 10)%nat then String "\" (String "n" EmptyString)
  else if (n =? 12)%nat then String "\" (String "f" EmptyString)
  else if (n =? 13)%nat then String "\" (String "r" EmptyString)
  else if (n <? 32)%nat then
    String "\" (String "u" (String "0" (String "0"
      (String (hex_digit (n / 16)) (String (hex_digit (n mod 16)) EmptyString)))))
  else String c EmptyString.

Fixpoint quote_units (s : string) : string :=
  match s with
  | EmptyString => EmptyString
  | String c t => quote_unit c +:+ quote_units t
  end.

Definition quote (s : string) : string :=
  String dquote (quote_units s +:+ String dquote EmptyString).

Definition number_to_string (n : number) : string :=
  match n with
  | Int z => pretty z
  | Frac repr => repr
  end.

Definition newline : string := String (ascii_of_nat 10) EmptyString.

Definition join (sep : string) (parts : list string) : string :=
  match parts with
  | [] => EmptyString
  | p :: r => fold_left (fun acc x => acc +:+ sep +:+ x) r p
  end.

(** [None] stands for the [undefined] that [JSON.stringify] returns for
    [undefined]; such a property is left out of an object and such an
    element of an array is printed as [null]. *)
Fixpoint stringify_at (indent : string) (v : value) : option string :=
  let inner := indent +:+ "  " in
  match v with
  | Undefined => None
  | Null => Some "null"
  | Bool true => Some "true"
  | Bool false => Some "false"
  | Num n => Some (number_to_string n)
  | Str s => Some (quote s)
  | Arr items =>
      match items with
      | [] => Some "[]"
      | _ =>
          let parts :=
            (fix each (l : list value) : list string :=
               match l with
               | [] => []
               | x :: r =>
                   (inner +:+ default "null" (stringify_at inner x)) :: each r
               end) items in
          Some ("[" +:+ newline +:+ join ("," +:+ newline) parts
                +:+ newline +:+ indent +:+ "]")
      end
  | Obj fields =>
      let parts :=
        (fix each (l : props) : list string :=
           match l with
           | [] => []
           | (k, x) :: r =>
               match stringify_at inner x with
               | Some text => (inner +:+ quote k +:+ ": " +:+ text) :: each r
               | None => each r
               end
           end) fields in
      match parts with
      | [] => Some "{}"
      | _ =>
          Some ("{" +:+ newline +:+ join ("," +:+ newline) parts
                +:+ newline +:+ indent +:+ "}")
      end
  end.

Definition JSON_stringify (v : value) : option string :=
  stringify_at EmptyString v.

(** [JSON.parse(JSON.stringify(v))]: what is read back from a document
    written from [v].  Properties holding [undefined] are gone and
    [undefined] elements have become [null]. *)
Fixpoint JSON_roundtrip (v : value) : value :=
  match v with
  | Arr items =>
      Arr ((fix each (l : list value) : list value :=
              match l with
              | [] => []
              | Undefined :: r => Null :: each r
              | x :: r => JSON_roundtrip x :: each r
              end) items)
  | Obj fields =>
      Obj ((fix each (l : props) : props :=
              match l with
              | [] => []
              | (_, Undefined) :: r => each r
              | (k, x) :: r => (k, JSON_roundtrip x) :: each r
              end) fields)
  | _ => v
  end.

End Js.

Import Js.

(* ===================================================================== *)
(** * src/parameterMapper.ts                                              *)
(* ===================================================================== *)

Module ParameterMapper.

(** ** The regular expression [namedParamRegex]

    A negative lookbehind for a colon, a colon, then capture group 1: one
    unit of [a-zA-Z_] followed by any number of units of [a-zA-Z0-9_];
    flag g.

    A JavaScript string is a sequence of code units; the character classes
    of the expression only contain ASCII, so a code unit is an [ascii] and
    every other unit is ordinary text. *)

Definition code (c : ascii) : nat := nat_of_ascii c.

Definition in_range (lo hi : ascii) (c : ascii) : bool :=
  (code lo <=? code c)%nat && (code c <=? code hi)%nat.

(** [[a-zA-Z_]] *)
Definition ident_start (c : ascii) : bool :=
  (in_range "a" "z" c || in_range "A" "Z" c || Ascii.eqb c "_")%char.

(** [[a-zA-Z0-9_]] *)
Definition ident_char (c : ascii) : bool :=
  (in_range "a" "z" c || in_range "A" "Z" c || in_range "0" "9" c
   || Ascii.eqb c "_")%char.

Definition is_colon (c : ascii) : bool := Ascii.eqb c ":"%char.

(** The starred class, greedy: the longest prefix of identifier units. *)
Fixpoint ident_rest (s : string) : string :=
  match s with
  | String c t => if ident_char c then String c (ident_rest t) else EmptyString
  | EmptyString => EmptyString
  end.

(** [(?<!:)]: the unit before the current index, if any, is not a colon. *)
Definition not_after_colon (prev : option ascii) : bool :=
  match prev with
  | Some p => negb (is_colon p)
  | None => true
  end.

(** One attempt of the expression at the current index; [prev] is the unit
    just before it.  The result is capture group 1. *)
Definition match_at (prev : option ascii) (s : string) : option string :=
  match s with
  | String c (String h t) =>
      if not_after_colon prev && is_colon c && ident_start h
      then Some (String h (ident_rest t))
      else None
  | _ => None
  end.

(** What a walk of the global expression over a string yields: units that
    belong to no match, and matches (with their capture group). *)
Inductive piece : Type :=
  | Text (c : ascii)
  | Match (name : string).

(** The walk itself.  [skip] counts the units of the current match that are
    still to be stepped over ([lastIndex] lies that far ahead). *)
Fixpoint scan (skip : nat) (prev : option ascii) (s : string) : list piece :=
  match s with
  | EmptyString => []
  | String c t =>
      match skip with
      | S k => scan k (Some c) t
      | O =>
          match match_at prev s with
          | Some name => Match name :: scan (String.length name) (Some c) t
          | None => Text c :: scan 0 (Some c) t
          end
      end
  end.

(** [String.prototype.matchAll]: capture group 1 of every match, in order.
    The group always takes part in a match, hence [Some]. *)
Fixpoint matchAll_pieces (ps : list piece) : list (option string) :=
  match ps with
  | [] => []
  | Text _ :: r => matchAll_pieces r
  | Match name :: r => Some name :: matchAll_pieces r
  end.

Definition matchAll (s : string) : list (option string) :=
  matchAll_pieces (scan 0 None s).

(** [String.prototype.replace] with a replacer function: the replacer is
    called once per match, left to right, and may update the variables it
    closes over (the state [St]). *)
Fixpoint replace_pieces {St : Type} (replacer : string -> St -> string * St)
    (ps : list piece) (st : St) : string * St :=
  match ps with
  | [] => (EmptyString, st)
  | Text c :: r =>
      let '(out, st') := replace_pieces replacer r st in
      (String c out, st')
  | Match name :: r =>
      let '(rep, st1) := replacer name st in
      let '(out, st2) := replace_pieces replacer r st1 in
      (rep +:+ out, st2)
  end.

Definition replace {St : Type} (replacer : string -> St -> string * St)
    (s : string) (st : St) : string * St :=
  replace_pieces replacer (scan 0 None s) st.

(** ** parseNamedParameters *)

Record ParameterMapping : Type := {
  sql : string;
  parameterOrder : list string;
}.

(** The two variables the replacer closes over. *)
Record parse_state : Type := {
  st_order : list string;          (* parameterOrder *)
  st_map : gmap string nat;        (* paramMap *)
}.

(** [String(position)] where [position] is [number | undefined]. *)
Definition String_of_position (position : option nat) : string :=
  match position with
  | Some n => pretty n
  | None => "undefined"
  end.

Definition replacer (paramName : string) (st : parse_state) : string * parse_state :=
  let st' :=
    match st_map st !! paramName with
    | None =>
        {| st_order := st_order st ++ [paramName];
           st_map := <[paramName := length (st_order st) + 1]> (st_map st) |}
    | Some _ => st
    end in
  let position := st_map st' !! paramName in
  ("$" +:+ String_of_position position, st').

Definition parse_init : parse_state := {| st_order := []; st_map := ∅ |}.

Definition parseNamedParameters (sqlWithNamedParams : string) : ParameterMapping :=
  let '(sql, st) := replace replacer sqlWithNamedParams parse_init in
  {| sql := sql; parameterOrder := st_order st |}.

(** ** mapToPositional *)
Definition mapToPositional (params : value) (parameterOrder : list string)
    : list value :=
  map (fun name => get params name) parameterOrder.

(** ** extractNamedParameters *)

(** [[...new Set(xs)]]: a Set keeps its elements in insertion order and
    ignores the insertion of an element it already holds. *)
Definition Set_add (acc : list string) (x : string) : list string :=
  if decide (x ∈ acc) then acc else acc ++ [x].

Definition Set_from (xs : list string) : list string :=
  fold_left Set_add xs [].

(** [.filter(p => p !== undefined)] after [.map(m => m[1])]. *)
Definition defined (xs : list (option string)) : list string :=
  omap id xs.

Definition extractNamedParameters (sql : string) : list string :=
  Set_from (defined (matchAll sql)).

End ParameterMapper.

Import ParameterMapper.

(* ===================================================================== *)
(** * The JSON-Schema compiler and the validation library                 *)
(* ===================================================================== *)

Module Ajv.

(** The JSON-Schema compiler ([ajv.compile]) is an external library; what
    this program needs of it is whether it accepts a candidate. *)

(** The type names of JSON Schema. *)
Definition simpleTypes : list string :=
  ["array"; "boolean"; "integer"; "null"; "number"; "object"; "string"].

Definition is_simple_type (v : value) : bool :=
  match v with
  | Str t => bool_decide (t ∈ simpleTypes)
  | _ => false
  end.

(** [type]: a type name, or a non-empty array of distinct type names. *)
Definition type_ok (v : value) : bool :=
  match v with
  | Str _ => is_simple_type v
  | Arr (t :: ts) =>
      forallb is_simple_type (t :: ts)
      && bool_decide (NoDup (omap (fun x => match x with Str n => Some n | _ => None end) (t :: ts)))
  | _ => false
  end.

(** [required]: an array of distinct strings. *)
Definition required_ok (v : value) : bool :=
  match v with
  | Arr names =>
      forallb (fun x => match x with Str _ => true | _ => false end) names
      && bool_decide (NoDup (omap (fun x => match x with Str n => Some n | _ => None end) names))
  | _ => false
  end.

(** Modelled from the spec: the JSON-Schema compiler is not under src/.
    Section 4.2 gives its contract: a candidate is accepted only if it is
    an object form with well-formed type declarations; unknown or invalid
    [type] values and non-object candidates are rejected.  The
    repository's tests pin the same facts (an array is rejected, and so is
    [{ type: 'invalid_type', properties: {} }]).  The keywords this
    program reads ([type], [properties], [items], [required]) are checked,
    the schemas nested under [properties] and [items] in turn; the
    compiler being configured with [strict: false], every other keyword
    passes. *)
Fixpoint schema_ok (schema : value) : bool :=
  match schema with
  | Bool _ => true
  | Obj fields =>
      (fix keywords (l : props) : bool :=
         match l with
         | [] => true
         | (k, v) :: r =>
             (if String.eqb k "type" then type_ok v
              else if String.eqb k "required" then required_ok v
              else if String.eqb k "properties" then
                match v with
                | Obj ps =>
                    (fix all (l : props) : bool :=
                       match l with
                       | [] => true
                       | (_, s) :: r => schema_ok s && all r
                       end) ps
                | _ => false
                end
              else if String.eqb k "items" then
                match v with
                | Arr (s :: ss) =>
                    (fix all (l : list value) : bool :=
                       match l with
                       | [] => true
                       | s :: r => schema_ok s && all r
                       end) (s :: ss)
                | Arr [] => false
                | _ => schema_ok v
                end
              else true)
             && keywords r
         end) fields
  | _ => false
  end.

(** Modelled from the spec: [ajv.compile(schema)] returns (a validator,
    which this program does not use) or throws, as [schema_ok] says. *)
Definition compile (schema : value) : exn + unit :=
  if schema_ok schema then inr tt
  else inl (Error "schema is invalid").

End Ajv.

Module Zod.

(** The validation library (zod) is an external library; only the
    constructors the program calls are modelled. *)

Inductive ZodSchema : Type :=
  | ZString                                   (* z.string() *)
  | ZNumber (int : bool)                      (* z.number(), z.number().int() *)
  | ZBoolean                                  (* z.boolean() *)
  | ZArray (item : ZodSchema)                 (* z.array(item) *)
  | ZAny                                      (* z.any() *)
  | ZDefault (inner : ZodSchema) (d : value)  (* inner.default(d) *)
  | ZOptional (inner : ZodSchema)             (* inner.optional() *)
  | ZObject (shape : list (string * ZodSchema)). (* z.object(shape) *)

(** An issue of a ZodError: where, and what. *)
Record issue : Type := {
  path : list string;
  message : string;
}.

Inductive parsed : Type :=
  | Valid (v : value)
  | Invalid (issues : list issue).

(** The name the library gives the type of a received value. *)
Definition received (v : value) : string :=
  match v with
  | Undefined => "undefined"
  | Null => "null"
  | Bool _ => "boolean"
  | Num _ => "number"
  | Str _ => "string"
  | Arr _ => "array"
  | Obj _ => "object"
  end.

Definition invalid_type (expected : string) (v : value) : parsed :=
  Invalid
    [{| path := [];
        message := if is_undefined v then "Required"
                   else "Expected " +:+ expected +:+ ", received " +:+ received v |}].

Definition under (segment : string) (i : issue) : issue :=
  {| path := segment :: path i; message := message i |}.

(** Modelled from the spec: the validation library is not under src/.
    Section 4.2 lists what a validator does per declared type (string,
    number, integer, boolean, array with an optional item schema,
    catch-all) and how defaults and optional properties behave; errors
    are aggregated, each with its field path.  The messages, and the
    order of the steps (a default is put in place of a missing value and
    then checked like any value), are the library's, on which the
    repository's tests rely.  This is [schema.safeParse(v)]. *)
Fixpoint parse (schema : ZodSchema) (v : value) : parsed :=
  match schema with
  | ZString =>
      match v with Str _ => Valid v | _ => invalid_type "string" v end
  | ZNumber int =>
      match v with
      | Num n =>
          if int && negb (is_integer n)
          then Invalid [{| path := []; message := "Expected integer, received float" |}]
          else Valid v
      | _ => invalid_type "number" v
      end
  | ZBoolean =>
      match v with Bool _ => Valid v | _ => invalid_type "boolean" v end
  | ZAny => Valid v
  | ZOptional inner =>
      match v with Undefined => Valid Undefined | _ => parse inner v end
  | ZDefault inner d =>
      match v with Undefined => parse inner d | _ => parse inner v end
  | ZArray item =>
      match v with
      | Arr items =>
          (* every element is parsed; all issues are reported *)
          let '(outs, issues) :=
            (fix each (i : nat) (l : list value) : list value * list issue :=
               match l with
               | [] => ([], [])
               | x :: r =>
                   let '(outs, issues) := each (S i) r in
                   match parse item x with
                   | Valid out => (out :: outs, issues)
                   | Invalid here => (outs, map (under (pretty i)) here ++ issues)
                   end
               end) 0 items in
          match issues with
          | [] => Valid (Arr outs)
          | _ => Invalid issues
          end
      | _ => invalid_type "array" v
      end
  | ZObject shape =>
      match v with
      | Obj fields =>
          (* every key of the shape is parsed, unknown keys are dropped; a
             key is set in the output when the input has it or its parsed
             value is not undefined *)
          let '(outs, issues) :=
            (fix each (l : list (string * ZodSchema)) : props * list issue :=
               match l with
               | [] => ([], [])
               | (key, s) :: r =>
                   let '(outs, issues) := each r in
                   match parse s (default Undefined (own key fields)) with
                   | Valid out =>
                       (if negb (is_undefined out) || has_own key fields
                        then (key, out) :: outs else outs, issues)
                   | Invalid here => (outs, map (under key) here ++ issues)
                   end
               end) shape in
          match issues with
          | [] => Valid (Obj outs)
          | _ => Invalid issues
          end
      | _ => invalid_type "object" v
      end
  end.

End Zod.

Import Zod.

(* ===================================================================== *)
(** * src/jsonSchemaValidator.ts                                          *)
(* ===================================================================== *)

Module JsonSchemaValidator.

(** ** validateJsonSchema *)
Definition validateJsonSchema (schema : value) : bool :=
  if is_nullish schema || negb (String.eqb (typeof schema) "object") then false
  else
    match Ajv.compile schema with
    | inr _ => true
    | inl _ => false
    end.

(** ** createZodFieldFromJsonSchema

    [isRequired] defaults to [true] and [defaultValue] to [undefined];
    the recursive call for [items] relies on both defaults. *)
Fixpoint createZodFieldFromJsonSchema (jsonSchema : value) (isRequired : bool)
    (defaultValue : value) : ZodSchema :=
  let type := get jsonSchema "type" in
  let schema :=
    match type with
    | Str "string" => ZString
    | Str "number" => ZNumber false
    | Str "integer" => ZNumber true
    | Str "boolean" => ZBoolean
    | Str "array" =>
        (* jsonSchema['items'] ? createZodFieldFromJsonSchema(jsonSchema['items']) : z.any() *)
        let itemSchema :=
          match jsonSchema with
          | Obj fields =>
              (fix items (l : props) : ZodSchema :=
                 match l with
                 | [] => ZAny
                 | (k, v) :: r =>
                     if String.eqb k "items"
                     then if truthy v
                          then createZodFieldFromJsonSchema v true Undefined
                          else ZAny
                     else items r
                 end) fields
          | _ => ZAny
          end in
        ZArray itemSchema
    | _ => ZAny
    end in
  if negb (is_undefined defaultValue) then ZDefault schema defaultValue
  else if negb isRequired then ZOptional schema
  else schema.

(** [new Set(iterable)]: the elements of an array, the units of a string;
    any other value is not iterable. *)
Definition Set_of (v : value) : exn + list value :=
  match v with
  | Arr items => inr items
  | Str s => inr (map (fun c => Str (String c EmptyString)) (list_ascii_of_string s))
  | _ => inl (TypeError (typeof v +:+ " is not iterable"))
  end.

(** [requiredFields.has(key)] *)
Definition Set_has (s : list value) (key : string) : bool :=
  existsb (same_value (Str key)) s.

(** [Object.entries(v)] of a truthy value. *)
Definition Object_entries (v : value) : props :=
  match v with
  | Obj fields => fields
  | Arr items => imap (fun i x => (pretty i, x)) items
  | Str s =>
      imap (fun i c => (pretty i, Str (String c EmptyString)))
        (list_ascii_of_string s)
  | _ => []
  end.

(** [schemaFields[key] = field] on the record being built. *)
Fixpoint set_shape (key : string) (field : ZodSchema)
    (shape : list (string * ZodSchema)) : list (string * ZodSchema) :=
  match shape with
  | [] => [(key, field)]
  | (k, x) :: r =>
      if String.eqb k key then (k, field) :: r
      else (k, x) :: set_shape key field r
  end.

(** The loop shared, word for word, by [convertJsonSchemaToMcpZod] and
    [createZodSchemaFromJsonSchemaManual].  [propSchema['default']] throws
    on a property schema that is [null] or [undefined]. *)
Fixpoint schema_fields_loop (requiredFields : list value) (entries : props)
    (schemaFields : list (string * ZodSchema))
    : exn + list (string * ZodSchema) :=
  match entries with
  | [] => inr schemaFields
  | (key, propSchema) :: r =>
      if is_nullish propSchema
      then inl (TypeError ("Cannot read properties of " +:+ received propSchema
                           +:+ " (reading 'default')"))
      else
        let isRequired := Set_has requiredFields key in
        let defaultValue := get propSchema "default" in
        schema_fields_loop requiredFields r
          (set_shape key
             (createZodFieldFromJsonSchema propSchema isRequired defaultValue)
             schemaFields)
  end.

Definition schema_fields (jsonSchema : value)
    : exn + list (string * ZodSchema) :=
  if same_value (get jsonSchema "type") (Str "object")
     && truthy (get jsonSchema "properties")
  then
    let required := get jsonSchema "required" in
    match Set_of (if truthy required then required else Arr []) with
    | inl e => inl e
    | inr requiredFields =>
        schema_fields_loop requiredFields
          (Object_entries (get jsonSchema "properties")) []
    end
  else inr [].

(** ** convertJsonSchemaToMcpZod *)
Definition convertJsonSchemaToMcpZod (jsonSchema : value)
    : exn + list (string * ZodSchema) :=
  schema_fields jsonSchema.

(** ** createZodSchemaFromJsonSchemaManual *)
Definition createZodSchemaFromJsonSchemaManual (jsonSchema : value)
    : exn + ZodSchema :=
  match schema_fields jsonSchema with
  | inl e => inl e
  | inr schemaFields => inr (ZObject schemaFields)
  end.

(** ** convertJsonSchemaToZod

    The first attempt generates source text with the json-schema-to-zod
    library and evaluates it with [new Function]; neither can be written
    down here, so both are parameters: [jsonSchemaToZod] is the library
    call (which may throw) and [evalZodSchema] the evaluation of its text
    (which catches every failure of its own and then yields [z.any()]). *)
Section Convert.

Variable jsonSchemaToZod : value -> exn + string.
Variable evalZodSchema : string -> ZodSchema.

Definition convertJsonSchemaToZod (jsonSchema : value) : exn + ZodSchema :=
  match jsonSchemaToZod jsonSchema with
  | inr zodSchemaString => inr (evalZodSchema zodSchemaString)
  | inl _ => createZodSchemaFromJsonSchemaManual jsonSchema
  end.

End Convert.

End JsonSchemaValidator.

Import JsonSchemaValidator.

(* ===================================================================== *)
(** * src/types.ts                                                        *)
(* ===================================================================== *)

Module Types.

Record SavedToolConfig : Type := {
  name : string;
  description : string;
  sql_query : string;
  sql_prepared : string;
  parameter_schema : value;
  parameter_order : list string;
}.

Module SaveQueryToolParams.
Record t : Type := {
  tool_name : string;
  description : string;
  sql_query : string;
  parameter_schema : value;
  overwrite : option bool;          (* overwrite?: boolean *)
}.
End SaveQueryToolParams.

Module DeleteSavedQueryToolParams.
Record t : Type := { tool_name : string }.
End DeleteSavedQueryToolParams.

End Types.

Import Types.

(* ===================================================================== *)
(** * The process and its collaborators                                   *)
(* ===================================================================== *)

(** What the query executor ([pool.query] of the pg library) answers. *)
Module Pg.
Record FieldDef : Type := { name : string; dataTypeID : Z }.
Record QueryResult : Type := {
  rows : list value;
  rowCount : option Z;              (* number | null *)
  fields : list FieldDef;
}.
End Pg.

Module Runtime.

(** What a file holds: a JSON document, kept as the value [JSON.parse]
    makes of it, or text that is not JSON. *)
Inductive document : Type :=
  | JsonDoc (v : value)
  | Garbage (text : string).

(** A tool handler built by [createDynamicToolHandler]: the closure over
    [toolConfig] and [paramSchema]. *)
Inductive Callback : Type :=
  | DynamicTool (toolConfig : SavedToolConfig) (paramSchema : ZodSchema).

(** A tool as the protocol server holds it. *)
Record RegisteredTool : Type := {
  title : string;
  tool_description : string;          (* description *)
  inputSchema : list (string * ZodSchema);
  callback : Callback;
}.

(** The calls that leave the program: file system, protocol server, query
    executor. *)
Inductive call : Type :=
  | FsMkdir (path : string)
  | FsWriteFile (path : string)
  | FsReadFile (path : string)
  | FsUnlink (path : string)
  | ServerRegisterTool (tool : string)
  | ToolUpdate (tool : string)
  | ToolRemove (tool : string)
  | PoolQuery (text : string) (values : list value).

(** What the program does not decide: its environment variable, which of
    its outgoing calls fail and how, what the database answers (given the
    calls made so far), and the code generator behind
    [convertJsonSchemaToZod]. *)
Record Env : Type := {
  MCP_PG_DATA_DIR : option string;
  faults : call -> option exn;
  database : list call -> string -> list value -> exn + Pg.QueryResult;
  jsonSchemaToZod : value -> exn + string;
  evalZodSchema : string -> ZodSchema;
}.

Record World : Type := {
  env : Env;
  files : gmap string document;              (* regular files, by path *)
  dirs : gset string;                       (* directories *)
  registeredTools : gmap string string;     (* server.ts: name -> handle *)
  server_tools : gmap string RegisteredTool;(* the server's own table *)
  console : list string;                    (* console.error, oldest first *)
  calls : list call;                        (* outgoing calls, oldest first *)
}.

Definition with_files (f : gmap string document -> gmap string document)
    (w : World) : World :=
  {| env := env w; files := f (files w); dirs := dirs w;
     registeredTools := registeredTools w; server_tools := server_tools w;
     console := console w; calls := calls w |}.

Definition with_dirs (f : gset string -> gset string) (w : World) : World :=
  {| env := env w; files := files w; dirs := f (dirs w);
     registeredTools := registeredTools w; server_tools := server_tools w;
     console := console w; calls := calls w |}.

Definition with_registeredTools
    (f : gmap string string -> gmap string string) (w : World) : World :=
  {| env := env w; files := files w; dirs := dirs w;
     registeredTools := f (registeredTools w); server_tools := server_tools w;
     console := console w; calls := calls w |}.

Definition with_server_tools
    (f : gmap string RegisteredTool -> gmap string RegisteredTool)
    (w : World) : World :=
  {| env := env w; files := files w; dirs := dirs w;
     registeredTools := registeredTools w; server_tools := f (server_tools w);
     console := console w; calls := calls w |}.

Definition with_console (f : list string -> list string) (w : World) : World :=
  {| env := env w; files := files w; dirs := dirs w;
     registeredTools := registeredTools w; server_tools := server_tools w;
     console := f (console w); calls := calls w |}.

Definition with_calls (f : list call -> list call) (w : World) : World :=
  {| env := env w; files := files w; dirs := dirs w;
     registeredTools := registeredTools w; server_tools := server_tools w;
     console := console w; calls := f (calls w) |}.

(** ** Code that reads and writes the world and may throw *)

Definition M (A : Type) : Type := World -> (exn + A) * World.

Definition ret {A : Type} (a : A) : M A := fun w => (inr a, w).

Definition throw {A : Type} (e : exn) : M A := fun w => (inl e, w).

Definition bind {A B : Type} (m : M A) (f : A -> M B) : M B :=
  fun w =>
    match m w with
    | (inr a, w') => f a w'
    | (inl e, w') => (inl e, w')
    end.

(** [try { m } catch (error) { handler(error) }] *)
Definition try_catch {A : Type} (m : M A) (handler : exn -> M A) : M A :=
  fun w =>
    match m w with
    | (inr a, w') => (inr a, w')
    | (inl e, w') => handler e w'
    end.

Definition lift {A : Type} (r : exn + A) : M A := fun w => (r, w).

Definition gets {A : Type} (f : World -> A) : M A := fun w => (inr (f w), w).

Definition modify (f : World -> World) : M unit := fun w => (inr tt, f w).

Declare Scope m_scope.
Delimit Scope m_scope with M.
Notation "'let!' x ':=' m 'in' k" := (bind m (fun x => k))
  (at level 10, x name, m at level 200, k at level 200) : m_scope.
Notation "m '>>' k" := (bind m (fun _ => k))
  (at level 90, right associativity) : m_scope.

Local Open Scope m_scope.

(** [console.error(msg)] *)
Definition console_error (msg : string) (w : World) : World :=
  with_console (fun lines => lines ++ [msg]) w.

(** An outgoing call is recorded; the environment says whether it fails. *)
Definition perform (c : call) : M unit :=
  fun w =>
    let w' := with_calls (fun cs => cs ++ [c]) w in
    match faults (env w) c with
    | Some e => (inl e, w')
    | None => (inr tt, w')
    end.

(** ** node:fs *)

Definition existsSync (p : string) : M bool :=
  gets (fun w => bool_decide (is_Some (files w !! p)) || bool_decide (p ∈ dirs w)).

Definition mkdirSync (p : string) : M unit :=
  perform (FsMkdir p) >> modify (with_dirs (fun d => {[p]} ∪ d)).

Definition writeFileSync (p : string) (doc : document) : M unit :=
  perform (FsWriteFile p) >> modify (with_files (fun fs => <[p := doc]> fs)).

Definition ENOENT (p : string) : exn :=
  Error ("ENOENT: no such file or directory, open '" +:+ p +:+ "'").

Definition readFileSync (p : string) : M document :=
  perform (FsReadFile p) >>
  let! found := gets (fun w => files w !! p) in
  match found with
  | Some doc => ret doc
  | None => throw (ENOENT p)
  end.

Definition unlinkSync (p : string) : M unit :=
  perform (FsUnlink p) >>
  let! found := gets (fun w => files w !! p) in
  match found with
  | Some _ => modify (with_files (fun fs => delete p fs))
  | None => throw (ENOENT p)
  end.

(** [JSON.parse] of what a file holds. *)
Definition JSON_parse (doc : document) : exn + value :=
  match doc with
  | JsonDoc v => inr v
  | Garbage _ => inl (JsError ESyntaxError "Unexpected token in JSON")
  end.

(** ** The protocol server *)

(** Modelled from the spec: the protocol SDK is not under src/.  Section 3
    describes a registry entry as a live handle that supports [update] and
    [remove]; section 4.4, that a name is registered once.  A handle is
    known here by the name its tool was registered under.  This is
    [server.registerTool(name, config, handler)]. *)
Definition server_registerTool (toolName : string) (tool : RegisteredTool)
    : M string :=
  perform (ServerRegisterTool toolName) >>
  let! taken := gets (fun w => bool_decide (is_Some (server_tools w !! toolName))) in
  if (taken : bool)
  then throw (Error ("Tool " +:+ toolName +:+ " is already registered"))
  else
    modify (with_server_tools (fun ts => <[toolName := tool]> ts)) >>
    ret toolName.

(** Modelled from the spec: [handle.update(updates)], section 4.4. *)
Definition tool_update (handle : string) (updates : RegisteredTool) : M unit :=
  perform (ToolUpdate handle) >>
  modify (with_server_tools (fun ts => alter (fun _ => updates) handle ts)).

(** Modelled from the spec: [handle.remove()], section 4.4. *)
Definition tool_remove (handle : string) : M unit :=
  perform (ToolRemove handle) >>
  modify (with_server_tools (fun ts => delete handle ts)).

(** ** The query executor: [pool.query(text, values)] *)
Definition pool_query (text : string) (values : list value)
    : M Pg.QueryResult :=
  let! answer := gets (fun w => database (env w) (calls w) text values) in
  modify (with_calls (fun cs => cs ++ [PoolQuery text values])) >>
  lift answer.

End Runtime.

Import Runtime.

(* ===================================================================== *)
(** * src/responses.ts                                                    *)
(* ===================================================================== *)

Module Responses.

(** An element of [content]: [{ type: 'text', text }]. *)
Record TextContent : Type := { text : string }.

Record MCPResponse : Type := {
  content : list TextContent;
  isError : option bool;              (* isError?: boolean *)
}.

Definition createSuccessResponse (message : string) : MCPResponse :=
  {| content := [{| text := message |}]; isError := None |}.

Definition createErrorResponse (operation : string) (error : exn)
    (w : World) : MCPResponse * World :=
  let errorMessage := error_message error in
  let w := console_error ("Failed " +:+ operation +:+ ": " +:+ errorMessage) w in
  ({| content := [{| text := "Error " +:+ operation +:+ ": " +:+ errorMessage |}];
      isError := Some true |}, w).

(** ** Bodies handed to withErrorHandling

    A body is code that, besides acting on the world, may call the logger
    it is given.  [Log msg k] is such a call followed by [k]; [Act m k]
    runs world code [m] and goes on with its result; [Ret] and [Throw] end
    the body. *)
Inductive Prog (A : Type) : Type :=
  | Ret (a : A)
  | Throw (e : exn)
  | Log (msg : string) (k : Prog A)
  | Act {X : Type} (m : M X) (k : X -> Prog A).

Arguments Ret {A} a.
Arguments Throw {A} e.
Arguments Log {A} msg k.
Arguments Act {A X} m k.

Fixpoint pbind {A B : Type} (p : Prog A) (f : A -> Prog B) : Prog B :=
  match p with
  | Ret a => f a
  | Throw e => Throw e
  | Log msg k => Log msg (pbind k f)
  | Act m k => Act m (fun x => pbind (k x) f)
  end.

Definition act {A : Type} (m : M A) : Prog A := Act m Ret.

Definition log (msg : string) : Prog unit := Log msg (Ret tt).

Declare Scope prog_scope.
Delimit Scope prog_scope with P.
Notation "'let!' x ':=' p 'in' k" := (pbind p (fun x => k))
  (at level 10, x name, p at level 200, k at level 200) : prog_scope.
Notation "p '>>' k" := (pbind p (fun _ => k))
  (at level 90, right associativity) : prog_scope.

(** [HandledFn] returns a string; [AsyncHandledFn] returns a promise of
    one, that is, code still to run.  A function declared [async] does all
    its work inside the promise. *)
Inductive Fn : Type :=
  | Sync (fn : Prog string)
  | Async (fn : Prog (Prog string)).

Definition async (body : Prog string) : Fn := Async (Ret body).

(** Running a body with the logger of [withErrorHandling]:
    [log = msg => { console.error(msg); stage = ` while ${msg}`; }].
    The result carries the value of [stage] when the body ended. *)
Fixpoint run {A : Type} (p : Prog A) (stage : string) (w : World)
    : (exn + A) * string * World :=
  match p with
  | Ret a => (inr a, stage, w)
  | Throw e => (inl e, stage, w)
  | Log msg k => run k (" while " +:+ msg) (console_error msg w)
  | Act m k =>
      match m w with
      | (inr x, w') => run (k x) stage w'
      | (inl e, w') => (inl e, stage, w')
      end
  end.

(** ** withErrorHandling *)
Definition withErrorHandling (operation : string) (fn : Fn) (w : World)
    : MCPResponse * World :=
  let w := console_error ("Started " +:+ operation) w in
  match fn with
  | Sync body =>
      match run body EmptyString w with
      | (inr result, _, w) =>
          let w := console_error ("Finished " +:+ operation) w in
          (createSuccessResponse result, w)
      | (inl error, stage, w) =>
          let w := console_error ("Finished " +:+ operation) w in
          createErrorResponse (operation +:+ stage) error w
      end
  | Async body =>
      match run body EmptyString w with
      | (inr promise, stage, w) =>
          (* result.then(..).catch(..).finally(..) *)
          match run promise stage w with
          | (inr value, _, w) =>
              let w := console_error ("Finished " +:+ operation) w in
              (createSuccessResponse value, w)
          | (inl error, stage, w) =>
              let '(response, w) :=
                createErrorResponse (operation +:+ stage) error w in
              (response, console_error ("Finished " +:+ operation) w)
          end
      | (inl error, stage, w) =>
          let w := console_error ("Finished " +:+ operation) w in
          createErrorResponse (operation +:+ stage) error w
      end
  end.

End Responses.

Import Responses.

(* ===================================================================== *)
(** * src/storage.ts                                                      *)
(* ===================================================================== *)

Module Storage.

Local Open Scope m_scope.

(** [path.join(a, b)].  Paths only serve as keys of the file system, so
    the normalisation [join] performs is left out. *)
Definition join_path (a b : string) : string := a +:+ "/" +:+ b.

Definition DATA_DIR (w : World) : string :=
  default "./data" (MCP_PG_DATA_DIR (env w)).

Definition TOOLS_DIR (w : World) : string := join_path (DATA_DIR w) "tools".

Definition tool_file (toolName : string) (w : World) : string :=
  join_path (TOOLS_DIR w) (toolName +:+ ".json").

Definition ensureDataDirectory : M unit :=
  let! data := gets DATA_DIR in
  let! tools := gets TOOLS_DIR in
  let! there := existsSync data in
  (if negb there then mkdirSync data else ret tt) >>
  let! there := existsSync tools in
  (if negb there then mkdirSync tools else ret tt).

(** The object a configuration is, property by property. *)
Definition config_value (config : SavedToolConfig) : value :=
  Obj [("name", Str (name config));
       ("description", Str (description config));
       ("sql_query", Str (sql_query config));
       ("sql_prepared", Str (sql_prepared config));
       ("parameter_schema", parameter_schema config);
       ("parameter_order", Arr (map Str (parameter_order config)))].

(** The document [JSON.stringify(config, null, 2)] writes. *)
Definition config_document (config : SavedToolConfig) : document :=
  JsonDoc (JSON_roundtrip (config_value config)).

Definition saveToolToFile (toolName : string) (config : SavedToolConfig)
    : M unit :=
  ensureDataDirectory >>
  let! filePath := gets (tool_file toolName) in
  try_catch
    (writeFileSync filePath (config_document config))
    (fun error =>
       throw (Error ("Failed to save tool '" +:+ toolName +:+ "' to file: "
                     +:+ error_message error))).

Definition is_string (v : value) : bool :=
  match v with Str _ => true | _ => false end.

Definition isValidToolConfig (config : value) : bool :=
  String.eqb (typeof config) "object"
  && negb (same_value config Null)
  && is_string (get config "name")
  && is_string (get config "description")
  && is_string (get config "sql_query")
  && is_string (get config "sql_prepared")
  && String.eqb (typeof (get config "parameter_schema")) "object"
  && match get config "parameter_order" with
     | Arr items => forallb is_string items
     | _ => false
     end.

(** Reading a checked object at the type [SavedToolConfig]. *)
Definition string_of (v : value) : string :=
  match v with Str s => s | _ => EmptyString end.

Definition as_SavedToolConfig (config : value) : SavedToolConfig :=
  {| name := string_of (get config "name");
     description := string_of (get config "description");
     sql_query := string_of (get config "sql_query");
     sql_prepared := string_of (get config "sql_prepared");
     parameter_schema := get config "parameter_schema";
     parameter_order :=
       match get config "parameter_order" with
       | Arr items => map string_of items
       | _ => []
       end |}.

Definition loadToolFromFile (toolName : string) : M (option SavedToolConfig) :=
  let! filePath := gets (tool_file toolName) in
  let! there := existsSync filePath in
  if negb there then ret None
  else
    try_catch
      (let! jsonData := readFileSync filePath in
       let! config := lift (JSON_parse jsonData) in
       if negb (isValidToolConfig config)
       then throw (Error ("Invalid tool configuration in file: " +:+ filePath))
       else ret (Some (as_SavedToolConfig config)))
      (fun error =>
         throw (Error ("Failed to load tool '" +:+ toolName +:+ "' from file: "
                       +:+ error_message error))).

Definition deleteToolFile (toolName : string) : M unit :=
  let! filePath := gets (tool_file toolName) in
  let! there := existsSync filePath in
  if negb there then ret tt
  else
    try_catch
      (unlinkSync filePath)
      (fun error =>
         throw (Error ("Failed to delete tool file '" +:+ toolName +:+ "': "
                       +:+ error_message error))).

End Storage.

Import Storage.

(* ===================================================================== *)
(** * src/schemaService.ts: getTypeNames                                  *)
(* ===================================================================== *)

Module SchemaService.

Local Open Scope m_scope.

(** A [Map] in insertion order, its keys compared as [Map] compares them. *)
Definition JsMap : Type := list (value * value).

Fixpoint Map_set (key v : value) (m : JsMap) : JsMap :=
  match m with
  | [] => [(key, v)]
  | (k, x) :: r =>
      if same_value k key then (k, v) :: r else (k, x) :: Map_set key v r
  end.

Fixpoint Map_get (key : value) (m : JsMap) : value :=
  match m with
  | [] => Undefined
  | (k, x) :: r => if same_value k key then x else Map_get key r
  end.

Definition typeNames_query : string :=
  newline +:+ "    SELECT oid, typname" +:+ newline +:+
  "    FROM pg_type" +:+ newline +:+
  "    WHERE oid = ANY($1::oid[])" +:+ newline +:+ "  ".

Definition getTypeNames (oids : list Z) : M JsMap :=
  match oids with
  | [] => ret []
  | _ =>
      let! result :=
        pool_query typeNames_query [Arr (map (fun o => Num (Int o)) oids)] in
      ret (fold_left
             (fun typeMap row => Map_set (get row "oid") (get row "typname") typeMap)
             (Pg.rows result) [])
  end.

End SchemaService.

Import SchemaService.

(* ===================================================================== *)
(** * src/dynamicToolHandler.ts                                           *)
(* ===================================================================== *)

Module DynamicToolHandler.

(** [a ?? b] *)
Definition nullish_or (a b : value) : value := if is_nullish a then b else a.

Definition number_or_null (n : option Z) : value :=
  match n with Some z => Num (Int z) | None => Null end.

(** [JSON.stringify] of an object; an object always prints. *)
Definition stringify (v : value) : string := default "undefined" (JSON_stringify v).

Definition createDynamicToolHandler (toolConfig : SavedToolConfig) : M Callback :=
  fun w =>
    match convertJsonSchemaToZod (jsonSchemaToZod (env w)) (evalZodSchema (env w))
            (parameter_schema toolConfig) with
    | inr paramSchema => (inr (DynamicTool toolConfig paramSchema), w)
    | inl e => (inl e, w)
    end.

Local Open Scope prog_scope.

(** The handler [createDynamicToolHandler] returns, applied to [params]. *)
Definition dynamicHandler (handler : Callback) (params : value)
    : World -> MCPResponse * World :=
  let 'DynamicTool toolConfig paramSchema := handler in
  withErrorHandling ("executing tool '" +:+ name toolConfig +:+ "'") (async (
    log "validating parameters" >>
    let! validatedParams :=
      match parse paramSchema params with
      | Valid v => Ret v
      | Invalid errors =>
          Throw (TypeError ("Parameter validation error: " +:+
            join ", " (map (fun e => join "." (path e) +:+ ": " +:+ message e)
                         errors)))
      end in

    log "executing SQL query" >>
    let positionalParams :=
      mapToPositional validatedParams (parameter_order toolConfig) in
    let! result := act (pool_query (sql_prepared toolConfig) positionalParams) in

    log "resolving type names" >>
    let oids := map Pg.dataTypeID (Pg.fields result) in
    let! typeNames := act (getTypeNames oids) in

    Ret (stringify (Obj [
      ("rows", Arr (Pg.rows result));
      ("rowCount", number_or_null (Pg.rowCount result));
      ("fields", Arr (map (fun f => Obj [
          ("name", Str (Pg.name f));
          ("dataType",
             nullish_or (Map_get (Num (Int (Pg.dataTypeID f))) typeNames)
               (Str "unknown"));
          ("dataTypeID", Num (Int (Pg.dataTypeID f)))]) (Pg.fields result)))]))
  )).

End DynamicToolHandler.

Import DynamicToolHandler.

(* ===================================================================== *)
(** * src/tools/executeSqlQuery.ts                                        *)
(* ===================================================================== *)

Module ExecuteSqlQuery.

Local Open Scope prog_scope.

Definition name : string := "execute_sql_query".

(** [params] is optional: [None] is [undefined]. *)
Definition handler (query : string) (params : option value)
    : World -> MCPResponse * World :=
  withErrorHandling "executing SQL query" (async (
    log "parsing parameters" >>
    let '{| sql := sql; parameterOrder := parameterOrder |} :=
      parseNamedParameters query in
    let positionalParams :=
      mapToPositional (default (Obj []) params) parameterOrder in

    log "executing query" >>
    let! result := act (pool_query sql positionalParams) in

    log "resolving type names" >>
    let oids := map Pg.dataTypeID (Pg.fields result) in
    let! typeNames := act (getTypeNames oids) in

    Ret (stringify (Obj [
      ("rows", Arr (Pg.rows result));
      ("rowCount", number_or_null (Pg.rowCount result));
      ("fields", Arr (map (fun f => Obj [
          ("name", Str (Pg.name f));
          ("dataType",
             nullish_or (Map_get (Num (Int (Pg.dataTypeID f))) typeNames)
               (Str "unknown"));
          ("dataTypeID", Num (Int (Pg.dataTypeID f)))]) (Pg.fields result)))]))
  )).

End ExecuteSqlQuery.

(* ===================================================================== *)
(** * src/tools/saveQuery.ts                                              *)
(* ===================================================================== *)

Module SaveQuery.

Import SaveQueryToolParams.

Definition name : string := "save_query".

Section Registration.

Local Open Scope m_scope.

Definition registerToolWithServer (toolName : string)
    (toolConfig : SavedToolConfig) : M string :=
  let! dynamicHandler := createDynamicToolHandler toolConfig in
  let! inputSchema :=
    lift (convertJsonSchemaToMcpZod (Types.parameter_schema toolConfig)) in
  let dynamicToolConfig :=
    {| title := Types.description toolConfig;
       tool_description := Types.description toolConfig;
       inputSchema := inputSchema;
       callback := dynamicHandler |} in
  let! registeredTool := server_registerTool toolName dynamicToolConfig in
  modify (with_registeredTools (fun m => <[toolName := registeredTool]> m)) >>
  ret registeredTool.

Definition updateExistingTool (toolName : string)
    (toolConfig : SavedToolConfig) : M unit :=
  let! existingTool := gets (fun w => registeredTools w !! toolName) in
  match existingTool with
  | None =>
      throw (Error ("Registered tool '" +:+ toolName +:+ "' not found for update"))
  | Some existingTool =>
      let! dynamicHandler := createDynamicToolHandler toolConfig in
      let! paramsSchema :=
        lift (convertJsonSchemaToMcpZod (Types.parameter_schema toolConfig)) in
      tool_update existingTool
        {| title := Types.description toolConfig;
           tool_description := Types.description toolConfig;
           inputSchema := paramsSchema;
           callback := dynamicHandler |}
  end.

End Registration.

Local Open Scope prog_scope.

(** [${n} parameter${n === 1 ? '' : 's'}: ${names.join(', ') || 'none'}] *)
Definition parameter_summary (namedParams : list string) : string :=
  pretty (length namedParams) +:+ " parameter"
  +:+ (if (length namedParams =? 1)%nat then EmptyString else "s") +:+ ": "
  +:+ (match join ", " namedParams with
       | EmptyString => "none"
       | joined => joined
       end).

Definition handler (params : SaveQueryToolParams.t)
    : World -> MCPResponse * World :=
  withErrorHandling ("saving tool '" +:+ tool_name params +:+ "'") (async (
    (* Check if tool already exists *)
    let! toolExists :=
      act (gets (fun w => bool_decide (is_Some (registeredTools w !! tool_name params)))) in
    let isUpdate := toolExists && default false (overwrite params) in
    let isCreate := negb toolExists in

    if toolExists && negb (default false (overwrite params))
    then Throw (Error ("Tool with name '" +:+ tool_name params
                       +:+ "' already exists. Set overwrite=true to update it."))
    else

    log "validating parameter schema" >>
    if negb (validateJsonSchema (parameter_schema params))
    then Throw (Error "Invalid parameter_schema: must be a valid JSON Schema object")
    else

    log "parsing SQL parameters" >>
    let '{| sql := sqlPrepared; parameterOrder := parameterOrder |} :=
      parseNamedParameters (sql_query params) in
    let namedParams := extractNamedParameters (sql_query params) in

    let toolConfig :=
      {| Types.name := tool_name params;
         Types.description := description params;
         Types.sql_query := sql_query params;
         Types.sql_prepared := sqlPrepared;
         Types.parameter_schema := parameter_schema params;
         Types.parameter_order := parameterOrder |} in

    (* Persist first for atomicity *)
    log "persisting tool to file" >>
    act (saveToolToFile (tool_name params) toolConfig) >>

    (* Then register or update with server *)
    if isCreate then
      log "registering new tool in MCP server" >>
      act (registerToolWithServer (tool_name params) toolConfig) >>
      Ret ("Successfully created tool '" +:+ tool_name params +:+ "' with "
           +:+ parameter_summary namedParams)
    else if isUpdate then
      log "updating existing tool in MCP server" >>
      act (updateExistingTool (tool_name params) toolConfig) >>
      Ret ("Successfully updated tool '" +:+ tool_name params +:+ "' with "
           +:+ parameter_summary namedParams)
    else
      Throw (Error "Unexpected state in save_query handler")
  )).

End SaveQuery.

(* ===================================================================== *)
(** * src/tools/deleteSavedQuery.ts                                       *)
(* ===================================================================== *)

Module DeleteSavedQuery.

Import DeleteSavedQueryToolParams.

Local Open Scope prog_scope.

Definition name : string := "delete_saved_query".

(** Core tools that cannot be deleted *)
Definition PROTECTED_TOOLS : gset string :=
  list_to_set [
    "execute_sql_query";
    "save_query";
    "delete_saved_query";
    "list_saved_queries";
    "show_saved_query";
    "list_schemas";
    "list_tables";
    "describe_table";
    "list_views";
    "describe_view"
  ].

Definition handler (params : DeleteSavedQueryToolParams.t)
    : World -> MCPResponse * World :=
  withErrorHandling ("deleting tool '" +:+ tool_name params +:+ "'") (Sync (
    (* Check if it's a protected core tool *)
    if bool_decide (tool_name params ∈ PROTECTED_TOOLS)
    then Throw (Error ("Cannot delete core tool '" +:+ tool_name params +:+ "'"))
    else

    (* Check if tool exists in registered tools *)
    let! registeredTool := act (gets (fun w => registeredTools w !! tool_name params)) in
    match registeredTool with
    | None => Throw (Error ("Saved query '" +:+ tool_name params +:+ "' not found"))
    | Some registeredTool =>

    (* Remove from MCP server first *)
    log "removing tool from MCP server" >>
    act (tool_remove registeredTool) >>

    (* Remove from our registered tools map *)
    act (modify (with_registeredTools (fun m => delete (tool_name params) m))) >>

    (* Delete the file from storage *)
    log "deleting tool file from storage" >>
    act (deleteToolFile (tool_name params)) >>

    Ret ("Successfully deleted saved query '" +:+ tool_name params +:+ "'")
    end
  )).

End DeleteSavedQuery.

(* ===================================================================== *)
(** * src/tools/showSavedQuery.ts                                         *)
(* ===================================================================== *)

Module ShowSavedQuery.

(** [ShowSavedQueryToolParams] of src/types.ts. *)
Module ShowSavedQueryToolParams.
Record t : Type := { tool_name : string }.
End ShowSavedQueryToolParams.

Import ShowSavedQueryToolParams.

Local Open Scope prog_scope.

Definition name : string := "show_saved_query".

Definition handler (params : ShowSavedQueryToolParams.t)
    : World -> MCPResponse * World :=
  withErrorHandling ("showing saved query '" +:+ tool_name params +:+ "'") (Sync (
    (* Check if tool exists in registered tools *)
    let! registered :=
      act (gets (fun w => bool_decide (is_Some (registeredTools w !! tool_name params)))) in
    if negb registered
    then Throw (Error ("Saved query '" +:+ tool_name params +:+ "' not found"))
    else

    (* Load tool configuration from storage *)
    let! toolConfig := act (loadToolFromFile (tool_name params)) in
    match toolConfig with
    | None =>
        Throw (Error ("Tool configuration for '" +:+ tool_name params
                      +:+ "' could not be loaded"))
    | Some toolConfig =>

    (* Return formatted tool definition *)
    let toolDefinition :=
      Obj [("name", Str (Types.name toolConfig));
           ("description", Str (description toolConfig));
           ("sql_query", Str (sql_query toolConfig));
           ("sql_prepared", Str (sql_prepared toolConfig));
           ("parameter_schema", parameter_schema toolConfig);
           ("parameter_order", Arr (map Str (parameter_order toolConfig)))] in

    Ret ("Tool definition for '" +:+ tool_name params +:+ "':"
         +:+ newline +:+ newline +:+ "```json" +:+ newline
         +:+ stringify toolDefinition +:+ newline +:+ "```")
    end
  )).

End ShowSavedQuery.

(* ===================================================================== *)
(** * Vocabulary of the properties                                        *)
(* ===================================================================== *)

(** The definitions below serve to state and to illustrate the properties
    proved afterwards; none of them belongs to the program. *)

(** ** Placeholders and positions *)

(** The names captured by the walk, one per placeholder occurrence. *)
Definition occurrences (sqlText : string) : list string :=
  defined (matchAll sqlText).

(** The distinct elements of a list, each kept at its first occurrence. *)
Fixpoint distinct_in_order (xs : list string) : list string :=
  match xs with
  | [] => []
  | x :: r => x :: filter (fun y => y <> x) (distinct_in_order r)
  end.

(** Index of the first occurrence of [name] in [l]. *)
Fixpoint index_of (name : string) (l : list string) : option nat :=
  match l with
  | [] => None
  | x :: r => if decide (x = name) then Some 0 else S <$> index_of name r
  end.

(** The 1-based position of [name] in [order]. *)
Definition position_of (order : list string) (name : string) : option nat :=
  (fun i => i + 1) <$> index_of name order.

(** The text a piece of the walk contributes to the rewritten SQL when
    positions are read off [order]. *)
Definition render (order : list string) (p : piece) : string :=
  match p with
  | Text c => String c EmptyString
  | Match name => "$" +:+ String_of_position (position_of order name)
  end.

Definition render_all (order : list string) (ps : list piece) : string :=
  foldr (fun p out => render order p +:+ out) EmptyString ps.

(** The query text of the specification's scenario A. *)
Definition scenario_A : string :=
  "SELECT * FROM t WHERE a = :x AND b = :y AND c = :x".

(** The code unit before the index reached after reading [s]. *)
Fixpoint last_unit (prev : option ascii) (s : string) : option ascii :=
  match s with
  | EmptyString => prev
  | String c t => last_unit (Some c) t
  end.

(** [s] is an identifier: a unit of the first class, then units of the
    second. *)
Fixpoint all_ident_char (s : string) : bool :=
  match s with
  | EmptyString => true
  | String c t => ident_char c && all_ident_char t
  end.

Definition identifier (s : string) : bool :=
  match s with
  | EmptyString => false
  | String c t => ident_start c && all_ident_char t
  end.

Definition starts_with_ident_char (s : string) : bool :=
  match s with
  | EmptyString => false
  | String c _ => ident_char c
  end.

Definition ends_with_colon (s : string) : bool :=
  match last_unit None s with
  | Some c => is_colon c
  | None => false
  end.

(** The state of the parser agrees with its own bookkeeping: the map sends
    a name to its 1-based position in the order list. *)
Definition consistent (st : parse_state) : Prop :=
  forall name, st_map st !! name = position_of (st_order st) name.

(** Names of the matches of a walk. *)
Definition names_of (ps : list piece) : list string :=
  defined (matchAll_pieces ps).

(** The text pieces of a string no unit of which starts a match. *)
Fixpoint text_of (s : string) : list piece :=
  match s with
  | EmptyString => []
  | String c t => Text c :: text_of t
  end.

(** ** Validators *)












(** ** Bodies and envelopes *)

(** The messages a body passes to its logger, in order, when run from
    world [w]. *)
Fixpoint logged {A : Type} (p : Prog A) (w : World) : list string :=
  match p with
  | Ret _ | Throw _ => []
  | Log msg k => msg :: logged k (console_error msg w)
  | Act m k =>
      match m w with
      | (inr x, w') => logged (k x) w'
      | (inl _, _) => []
      end
  end.

(** The stage an error message names: the last message reported, if any. *)
Definition stage_of (earlier : string) (msgs : list string) : string :=
  match last msgs with
  | Some msg => " while " +:+ msg
  | None => earlier
  end.

(** How a function handed to withErrorHandling ends, with the messages it
    reported: for an asynchronous one, the promise is run to its end. *)
Definition outcome (fn : Fn) (w : World) : (exn + string) * list string :=
  match fn with
  | Sync body => ((run body EmptyString w).1.1, logged body w)
  | Async body =>
      match run body EmptyString w with
      | (inr promise, stage, w') =>
          ((run promise stage w').1.1, logged body w ++ logged promise w')
      | (inl e, _, _) => (inl e, logged body w)
      end
  end.

(** ** Worlds *)

(** An environment for the examples: [MCP_PG_DATA_DIR] is unset, no
    outgoing call fails, the database answers every query with one row of
    one integer column and knows the name of that column's type, and the
    code generator is not available, so that validators are built by the
    manual conversion. *)
Definition example_env : Env :=
  {| MCP_PG_DATA_DIR := None;
     faults := fun _ => None;
     database := fun _ text _ =>
       if String.eqb text typeNames_query
       then inr {| Pg.rows := [Obj [("oid", Num (Int 23)); ("typname", Str "int4")]];
                   Pg.rowCount := Some 1%Z;
                   Pg.fields := [] |}
       else inr {| Pg.rows := [Obj [("id", Num (Int 7))]];
                   Pg.rowCount := Some 1%Z;
                   Pg.fields := [{| Pg.name := "id"; Pg.dataTypeID := 23 |}] |};
     jsonSchemaToZod := fun _ => inl (Error "json-schema-to-zod is not available");
     evalZodSchema := fun _ => ZAny |}.

(** The same, with a database that refuses every query. *)
Definition refusing_env : Env :=
  {| MCP_PG_DATA_DIR := None;
     faults := fun _ => None;
     database := fun _ _ _ => inl (Error "Connection refused");
     jsonSchemaToZod := fun _ => inl (Error "json-schema-to-zod is not available");
     evalZodSchema := fun _ => ZAny |}.

(** A process that has just started in an empty data directory. *)
Definition fresh_world (e : Env) : World :=
  {| env := e; files := ∅; dirs := ∅; registeredTools := ∅;
     server_tools := ∅; console := []; calls := [] |}.

(** The request that saves [get_user]. *)
Definition save_get_user : SaveQueryToolParams.t :=
  {| SaveQueryToolParams.tool_name := "get_user";
     SaveQueryToolParams.description := "Look a user up by id";
     SaveQueryToolParams.sql_query := "SELECT * FROM users WHERE id = :user_id";
     SaveQueryToolParams.parameter_schema :=
       Obj [("type", Str "object");
            ("properties", Obj [("user_id", Obj [("type", Str "integer")])]);
            ("required", Arr [Str "user_id"])];
     SaveQueryToolParams.overwrite := None |}.

(** The world after that request. *)
Definition world_with_get_user (e : Env) : World :=
  (SaveQuery.handler save_get_user (fresh_world e)).2.

(** The parts of the world a lifecycle operation can touch, the console
    apart. *)
Definition untouched (w w' : World) : Prop :=
  files w' = files w /\ dirs w' = dirs w
  /\ registeredTools w' = registeredTools w
  /\ server_tools w' = server_tools w
  /\ calls w' = calls w.

(** World code that leaves the files and the environment alone. *)
Definition keeps_files {A : Type} (m : M A) : Prop :=
  forall w, files (m w).2 = files w /\ env (m w).2 = env w.

(** The error form of the envelope. *)
Definition error_response (operation cause : string) : MCPResponse :=
  {| content := [{| text := "Error " +:+ operation +:+ ": " +:+ cause |}];
     isError := Some true |}.

(** The text the dynamic handler makes of the issues of a validation. *)
Definition validation_error (issues : list issue) : string :=
  "Parameter validation error: " +:+
  join ", " (map (fun e => join "." (path e) +:+ ": " +:+ message e) issues).

(** The definition and the handler that saving [get_user] produces. *)
Definition get_user_query : string := "SELECT * FROM users WHERE id = :user_id".

Definition get_user_config : SavedToolConfig :=
  {| Types.name := "get_user";
     Types.description := "Look a user up by id";
     Types.sql_query := get_user_query;
     Types.sql_prepared := "SELECT * FROM users WHERE id = $1";
     Types.parameter_schema := SaveQueryToolParams.parameter_schema save_get_user;
     Types.parameter_order := ["user_id"] |}.

Definition get_user_handler : Callback :=
  DynamicTool get_user_config (ZObject [("user_id", ZNumber true)]).

(** ** More vocabulary: strings *)

(** No unit of [s] is a colon. *)
Fixpoint no_colon (s : string) : bool :=
  match s with
  | EmptyString => true
  | String c t => negb (is_colon c) && no_colon t
  end.

(** ** More vocabulary: failures, requests and calls *)

(** The environment of the examples, except that the outgoing calls [bad]
    picks fail with an error of message [cause]. *)
Definition failing_env (bad : call -> bool) (cause : string) : Env :=
  {| MCP_PG_DATA_DIR := MCP_PG_DATA_DIR example_env;
     faults := fun c => if bad c then Some (Error cause) else None;
     database := database example_env;
     jsonSchemaToZod := jsonSchemaToZod example_env;
     evalZodSchema := evalZodSchema example_env |}.

Definition is_mkdir (c : call) : bool :=
  match c with FsMkdir _ => true | _ => false end.
Definition is_write (c : call) : bool :=
  match c with FsWriteFile _ => true | _ => false end.
Definition is_unlink (c : call) : bool :=
  match c with FsUnlink _ => true | _ => false end.
Definition is_register (c : call) : bool :=
  match c with ServerRegisterTool _ => true | _ => false end.
Definition is_remove (c : call) : bool :=
  match c with ToolRemove _ => true | _ => false end.

(** Something exists at path [p]: what [existsSync] answers. *)
Definition exists_at (p : string) (w : World) : Prop :=
  is_Some (files w !! p) \/ p ∈ dirs w.

(** World code that neither reads nor writes the console: run under any
    change of the console, it does the same and leaves that change. *)
Definition ignores_console {A : Type} (m : M A) : Prop :=
  forall f w, m (with_console f w) = ((m w).1, with_console f (m w).2).

(** The definition the save_query handler makes of a request. *)
Definition saved_config (params : SaveQueryToolParams.t) : SavedToolConfig :=
  {| Types.name := SaveQueryToolParams.tool_name params;
     Types.description := SaveQueryToolParams.description params;
     Types.sql_query := SaveQueryToolParams.sql_query params;
     Types.sql_prepared :=
       sql (parseNamedParameters (SaveQueryToolParams.sql_query params));
     Types.parameter_schema := SaveQueryToolParams.parameter_schema params;
     Types.parameter_order :=
       parameterOrder (parseNamedParameters (SaveQueryToolParams.sql_query params)) |}.

(** A request that replaces [get_user] by a query with two placeholders. *)
Definition overwrite_get_user : SaveQueryToolParams.t :=
  {| SaveQueryToolParams.tool_name := "get_user";
     SaveQueryToolParams.description := "Look a user up by id and tenant";
     SaveQueryToolParams.sql_query :=
       "SELECT * FROM users WHERE id = :user_id AND tenant = :tenant";
     SaveQueryToolParams.parameter_schema :=
       Obj [("type", Str "object");
            ("properties", Obj [("user_id", Obj [("type", Str "integer")]);
                                ("tenant", Obj [("type", Str "string")])]);
            ("required", Arr [Str "user_id"; Str "tenant"])];
     SaveQueryToolParams.overwrite := Some true |}.

(** The text show_saved_query returns for a definition. *)
Definition shown_definition (toolName : string) (config : SavedToolConfig)
    : string :=
  "Tool definition for '" +:+ toolName +:+ "':" +:+ newline +:+ newline
  +:+ "```json" +:+ newline +:+ stringify (config_value config) +:+ newline
  +:+ "```".

(** The query that resolves the type names of the columns of a result,
    if it has columns. *)
Definition type_names_call (result : Pg.QueryResult) : list call :=
  match Pg.fields result with
  | [] => []
  | fields =>
      [PoolQuery typeNames_query
         [Arr (map (fun f => Num (Int (Pg.dataTypeID f))) fields)]]
  end.

(** The calls an execution makes: the query, then the type names if the
    query returned. *)
Definition execution_calls (w : World) (text : string) (values : list value)
    : list call :=
  PoolQuery text values ::
  match database (env w) (calls w) text values with
  | inr result => type_names_call result
  | inl _ => []
  end.

(** The rows of a type-name result that are about [oid], oldest first. *)
Definition rows_of (oid : Z) (rows : list value) : list value :=
  filter (fun row => same_value (get row "oid") (Num (Int oid)) = true) rows.

(* ===================================================================== *)
(** * Properties of the parameter mapper                                  *)
(* ===================================================================== *)

(** ** Strings *)

Lemma append_cons (x : ascii) (a b : string) :
  String x a +:+ b = String x (a +:+ b).
Proof. reflexivity. Qed.

Lemma append_nil_l (a : string) : EmptyString +:+ a = a.
Proof. reflexivity. Qed.

Lemma append_assoc (a b c : string) : (a +:+ b) +:+ c = a +:+ (b +:+ c).
Proof.
  induction a as [|x a IH]; [done |]. rewrite !append_cons. by f_equal.
Qed.

Lemma append_nil_r (a : string) : a +:+ EmptyString = a.
Proof.
  induction a as [|x a IH]; [done |]. rewrite append_cons. by f_equal.
Qed.

(** ** Lists of names *)

Lemma index_of_None name l : index_of name l = None <-> name ∉ l.
Proof.
  induction l as [|x l IH]; simpl.
  - split; [intros _; apply not_elem_of_nil | done].
  - case_decide as Hx.
    + subst. split; [done | intros H; exfalso; apply H; left].
    + rewrite fmap_None, IH, not_elem_of_cons. naive_solver.
Qed.

Lemma index_of_Some name l i :
  index_of name l = Some i -> l !! i = Some name.
Proof.
  revert i. induction l as [|x l IH]; intros i; simpl; [done |].
  case_decide as Hx.
  - intros [= <-]. by subst.
  - destruct (index_of name l) as [j|] eqn:E; simpl; [|done].
    intros [= <-]. simpl. by apply IH.
Qed.

Lemma index_of_lt name l i : index_of name l = Some i -> i < length l.
Proof. intros H. eapply lookup_lt_Some, index_of_Some, H. Qed.

Lemma index_of_app_l name l l' :
  name ∈ l -> index_of name (l ++ l') = index_of name l.
Proof.
  induction l as [|x l IH]; simpl.
  - intros H. by apply elem_of_nil in H.
  - case_decide as Hx; [done |].
    intros [?|H]%elem_of_cons; [congruence |]. by rewrite IH.
Qed.

Lemma index_of_app_r name l :
  name ∉ l -> index_of name (l ++ [name]) = Some (length l).
Proof.
  induction l as [|x l IH]; simpl.
  - intros _. by rewrite decide_True.
  - intros [Hne Hnin]%not_elem_of_cons.
    rewrite decide_False by congruence. by rewrite IH.
Qed.

Lemma position_of_app_l order ext name :
  name ∈ order -> position_of (order ++ ext) name = position_of order name.
Proof. intros H. unfold position_of. by rewrite index_of_app_l. Qed.

Lemma position_of_elem order name :
  name ∈ order ->
  exists i, order !! i = Some name /\ position_of order name = Some (i + 1).
Proof.
  intros H. unfold position_of.
  destruct (index_of name order) as [i|] eqn:E.
  - exists i. split; [by apply index_of_Some | done].
  - by apply index_of_None in E.
Qed.

Lemma position_of_le order name p :
  position_of order name = Some p -> 1 <= p <= length order.
Proof.
  unfold position_of. destruct (index_of name order) as [i|] eqn:E; [|done].
  intros [= <-]. apply index_of_lt in E. lia.
Qed.

(** *** Insertion-ordered sets *)

Lemma Set_add_prefix acc x : exists ext, Set_add acc x = acc ++ ext.
Proof.
  unfold Set_add. case_decide; [exists [] | exists [x]]; [|done].
  by rewrite app_nil_r.
Qed.

Lemma Set_fold_prefix xs acc : exists ext, fold_left Set_add xs acc = acc ++ ext.
Proof.
  revert acc. induction xs as [|x xs IH]; intros acc; simpl.
  - exists []. by rewrite app_nil_r.
  - destruct (Set_add_prefix acc x) as [e1 ->].
    destruct (IH (acc ++ e1)) as [e2 ->].
    exists (e1 ++ e2). by rewrite app_assoc.
Qed.

Lemma Set_fold_elem xs acc x :
  x ∈ fold_left Set_add xs acc <-> x ∈ acc \/ x ∈ xs.
Proof.
  revert acc. induction xs as [|y xs IH]; intros acc; simpl.
  - split; [by left | intros [?|H]; [done | by apply elem_of_nil in H]].
  - rewrite IH, elem_of_cons. unfold Set_add. case_decide as Hy.
    + split; [naive_solver |]. intros [?|[->|?]]; auto.
    + rewrite elem_of_app, list_elem_of_singleton. naive_solver.
Qed.

Lemma Set_fold_NoDup xs acc : NoDup acc -> NoDup (fold_left Set_add xs acc).
Proof.
  revert acc. induction xs as [|y xs IH]; intros acc Hnd; simpl; [done |].
  apply IH. unfold Set_add. case_decide as Hy; [done |].
  apply NoDup_app. split_and!; [done | | apply NoDup_singleton].
  intros z Hz ->%list_elem_of_singleton. done.
Qed.

Lemma filter_ne_notin (x : string) (l : list string) :
  x ∉ l -> filter (fun y => y <> x) l = l.
Proof.
  induction l as [|y l IH]; [done |].
  intros [Hne Hnin]%not_elem_of_cons.
  rewrite filter_cons_True by congruence. by rewrite IH.
Qed.

Lemma Set_fold_filter xs acc x :
  filter (fun y => y <> x) (fold_left Set_add xs acc)
  = fold_left Set_add (filter (fun y => y <> x) xs) (filter (fun y => y <> x) acc).
Proof.
  revert acc. induction xs as [|y xs IH]; intros acc; simpl; [done |].
  rewrite IH. destruct (decide (y = x)) as [->|Hne].
  - rewrite filter_cons_False by (intros Hc; by apply Hc).
    f_equal. unfold Set_add. case_decide; [done |].
    rewrite filter_app, filter_cons_False by (intros Hc; by apply Hc).
    by rewrite filter_nil, app_nil_r.
  - rewrite filter_cons_True by done. simpl. f_equal.
    unfold Set_add. destruct (decide (y ∈ acc)) as [Hin|Hnin].
    + rewrite decide_True; [done |]. apply list_elem_of_filter. done.
    + rewrite decide_False.
      * rewrite filter_app, filter_cons_True by done. by rewrite filter_nil.
      * intros [_ ?]%list_elem_of_filter. done.
Qed.

Lemma Set_fold_cons xs x :
  fold_left Set_add xs [x] = x :: fold_left Set_add (filter (fun y => y <> x) xs) [].
Proof.
  induction xs as [|y xs IH] using rev_ind; [done |].
  rewrite filter_app, !fold_left_app. simpl. rewrite IH.
  destruct (decide (y = x)) as [->|Hne].
  - rewrite filter_cons_False by (intros Hc; by apply Hc). simpl.
    unfold Set_add at 1. rewrite decide_True; [done | left].
  - rewrite filter_cons_True by done. simpl. unfold Set_add at 1 3.
    set (l := fold_left Set_add _ []).
    destruct (decide (y ∈ l)) as [Hin|Hnin].
    + rewrite decide_True; [done | by right].
    + rewrite decide_False; [done |]. intros [?|?]%elem_of_cons; done.
Qed.

Lemma distinct_in_order_filter xs x :
  distinct_in_order (filter (fun y => y <> x) xs)
  = filter (fun y => y <> x) (distinct_in_order xs).
Proof.
  induction xs as [|y xs IH]; [done |]. simpl.
  destruct (decide (y = x)) as [->|Hne].
  - rewrite !filter_cons_False by (intros Hc; by apply Hc).
    rewrite IH. symmetry. by apply list_filter_filter_l.
  - rewrite filter_cons_True by done. simpl. rewrite filter_cons_True by done.
    f_equal. rewrite IH.
    rewrite !list_filter_filter. apply list_filter_iff. naive_solver.
Qed.

Lemma Set_from_distinct xs : Set_from xs = distinct_in_order xs.
Proof.
  unfold Set_from.
  remember (length xs) as n eqn:Hn.
  assert (Hle : length xs <= n) by lia. clear Hn.
  revert xs Hle. induction n as [|n IH]; intros [|x xs] Hle; simpl in *;
    try done; try lia.
  change (Set_add [] x) with [x]. rewrite Set_fold_cons. f_equal.
  rewrite IH by (pose proof (length_filter (fun y => y <> x) xs); lia).
  apply distinct_in_order_filter.
Qed.

(** ** The replacer and its bookkeeping *)

Lemma consistent_init : consistent parse_init.
Proof. intros name. simpl. by rewrite lookup_empty. Qed.

Lemma replacer_spec name st :
  consistent st ->
  let '(rep, st') := replacer name st in
  consistent st' /\
  st_order st' = Set_add (st_order st) name /\
  rep = render (st_order st') (Match name).
Proof.
  intros Hc. unfold replacer, Set_add. simpl.
  destruct (st_map st !! name) as [p|] eqn:E.
  - rewrite E. pose proof E as E'. rewrite Hc in E'.
    assert (name ∈ st_order st) as Hin.
    { destruct (decide (name ∈ st_order st)) as [|Hn]; [done |].
      apply index_of_None in Hn. unfold position_of in E'.
      by rewrite Hn in E'. }
    rewrite decide_True by done. by rewrite E'.
  - simpl. rewrite lookup_insert_eq.
    assert (name ∉ st_order st) as Hnin.
    { rewrite Hc in E. unfold position_of in E.
      apply fmap_None in E. by apply index_of_None. }
    rewrite decide_False by done. split_and!; [| done |].
    + intros n. simpl. destruct (decide (n = name)) as [->|Hne].
      * rewrite lookup_insert_eq. unfold position_of.
        by rewrite index_of_app_r.
      * rewrite lookup_insert_ne by done. rewrite Hc.
        destruct (decide (n ∈ st_order st)) as [Hin|Hn].
        -- by rewrite position_of_app_l.
        -- unfold position_of.
           assert (n ∉ st_order st ++ [name]) as Hn'.
           { rewrite elem_of_app, list_elem_of_singleton. naive_solver. }
           apply index_of_None in Hn, Hn'. by rewrite Hn, Hn'.
    + unfold position_of. by rewrite index_of_app_r.
Qed.

Lemma names_of_cons_Text c ps : names_of (Text c :: ps) = names_of ps.
Proof. reflexivity. Qed.

Lemma names_of_cons_Match name ps :
  names_of (Match name :: ps) = name :: names_of ps.
Proof. reflexivity. Qed.

Lemma render_all_ext order ext ps :
  (forall name, name ∈ names_of ps -> name ∈ order) ->
  render_all (order ++ ext) ps = render_all order ps.
Proof.
  induction ps as [|[c|name] ps IH]; intros Hin; [done | |];
    cbn [render_all foldr];
    fold (render_all (order ++ ext) ps); fold (render_all order ps).
  - by rewrite IH.
  - rewrite IH by (intros n Hn; apply Hin; rewrite names_of_cons_Match; by right).
    unfold render. rewrite position_of_app_l; [done |].
    apply Hin. rewrite names_of_cons_Match. left.
Qed.

Lemma replace_pieces_spec ps st :
  consistent st ->
  let '(out, st') := replace_pieces replacer ps st in
  consistent st' /\
  st_order st' = fold_left Set_add (names_of ps) (st_order st) /\
  out = render_all (st_order st') ps.
Proof.
  revert st. induction ps as [|[c|name] ps IH]; intros st Hc;
    cbn [replace_pieces].
  - done.
  - specialize (IH st Hc).
    destruct (replace_pieces replacer ps st) as [out st'].
    destruct IH as (? & ? & ->). done.
  - pose proof (replacer_spec name st Hc) as Hr.
    destruct (replacer name st) as [rep st1].
    destruct Hr as (Hc1 & Ho1 & ->).
    specialize (IH st1 Hc1).
    destruct (replace_pieces replacer ps st1) as [out st2].
    destruct IH as (Hc2 & Ho2 & ->).
    rewrite names_of_cons_Match. cbn [fold_left render_all foldr].
    rewrite <- Ho1. fold (render_all (st_order st2) ps).
    split_and!; [done | done |].
    destruct (Set_fold_prefix (names_of ps) (st_order st1)) as [ext Hext].
    f_equal. unfold render. rewrite Ho2, Hext.
    rewrite position_of_app_l; [done |].
    rewrite Ho1. apply (Set_fold_elem [name] (st_order st) name).
    right. left.
Qed.

Lemma parse_spec sqlText :
  parameterOrder (parseNamedParameters sqlText) = Set_from (occurrences sqlText)
  /\ sql (parseNamedParameters sqlText)
     = render_all (parameterOrder (parseNamedParameters sqlText))
         (scan 0 None sqlText).
Proof.
  unfold parseNamedParameters, replace.
  pose proof (replace_pieces_spec (scan 0 None sqlText) parse_init
                consistent_init) as H.
  destruct (replace_pieces replacer (scan 0 None sqlText) parse_init)
    as [out st].
  destruct H as (_ & Ho & ->). simpl. split; [|done].
  by rewrite Ho.
Qed.

Lemma max_list_positions order names :
  NoDup order ->
  (forall n, n ∈ order <-> n ∈ names) ->
  max_list (omap (position_of order) names) = length order.
Proof.
  intros Hnd Hiff. apply Nat.le_antisymm.
  - assert (Forall (fun p => p <= length order)
              (omap (position_of order) names)) as HF.
    { apply Forall_forall. intros p (n & _ & Hp)%list_elem_of_omap.
      apply position_of_le in Hp. lia. }
    induction HF as [|p l Hp _ IH]; simpl; lia.
  - destruct order as [|x order _] using rev_ind; [simpl; lia |].
    apply max_list_elem_of_le. apply list_elem_of_omap.
    exists x. split.
    + apply Hiff. rewrite elem_of_app, list_elem_of_singleton. by right.
    + apply NoDup_app in Hnd as (_ & Hdis & _).
      unfold position_of. rewrite index_of_app_r.
      * simpl. by rewrite length_app.
      * intros Hx. apply (Hdis x Hx). left.
Qed.

(** C1. For every SQL string, every placeholder occurrence is replaced by
    "$i", where i is the 1-based position the name received at its first
    occurrence; repeated names share one position; parameterOrder is the
    list of distinct names in first-occurrence order, and its length is the
    highest position used.  The concrete scenario A is the last
    conjunct. *)
Theorem parseNamedParameters_positions :
  (forall sqlText : string,
     let r := parseNamedParameters sqlText in
     sql r = render_all (parameterOrder r) (scan 0 None sqlText) /\
     parameterOrder r = distinct_in_order (occurrences sqlText) /\
     NoDup (parameterOrder r) /\
     (forall name, name ∈ occurrences sqlText ->
        exists i, parameterOrder r !! i = Some name /\
                  position_of (parameterOrder r) name = Some (i + 1)) /\
     max_list (omap (position_of (parameterOrder r)) (occurrences sqlText))
     = length (parameterOrder r))
  /\ parseNamedParameters scenario_A
     = {| sql := "SELECT * FROM t WHERE a = $1 AND b = $2 AND c = $1";
          parameterOrder := ["x"; "y"] |}.
Proof.
  split; [|by vm_compute].
  intros sqlText r. destruct (parse_spec sqlText) as [Ho Hs]. fold r in Ho, Hs.
  assert (NoDup (parameterOrder r)) as Hnd.
  { rewrite Ho. apply Set_fold_NoDup, NoDup_nil_2. }
  assert (forall n, n ∈ parameterOrder r <-> n ∈ occurrences sqlText) as Hiff.
  { intros n. rewrite Ho. unfold Set_from. rewrite Set_fold_elem.
    split; [intros [H|H]; [by apply elem_of_nil in H | done] | by right]. }
  split_and!; [done | | done | |].
  - by rewrite Ho, Set_from_distinct.
  - intros name Hin. apply position_of_elem. by apply Hiff.
  - by apply max_list_positions.
Qed.

Lemma parseNamedParameters_positions_witness :
  "x" ∈ occurrences scenario_A
  /\ exists i,
       parameterOrder (parseNamedParameters scenario_A) !! i = Some "x"
       /\ position_of (parameterOrder (parseNamedParameters scenario_A)) "x"
          = Some (i + 1).
Proof.
  assert ("x" ∈ occurrences scenario_A) as Hin.
  { apply (bool_decide_unpack _). by vm_compute. }
  split; [exact Hin |].
  exact (proj1 (proj2 (proj2 (proj2
           (proj1 parseNamedParameters_positions scenario_A)))) "x" Hin).
Defined.

(** C10. extractNamedParameters returns the same list of names as the
    parameterOrder component of parseNamedParameters. *)
Theorem extractNamedParameters_eq_parameterOrder (sqlText : string) :
  extractNamedParameters sqlText = parameterOrder (parseNamedParameters sqlText).
Proof. by destruct (parse_spec sqlText) as [-> _]. Qed.

(** ** How the walk splits around a token *)

Lemma ident_start_char c : ident_start c = true -> ident_char c = true.
Proof.
  unfold ident_start, ident_char. intros H.
  repeat (apply orb_true_iff in H as [H|H]); rewrite H;
    by rewrite ?orb_true_r.
Qed.

Lemma ident_char_not_colon c : ident_char c = true -> is_colon c = false.
Proof.
  unfold is_colon. destruct (Ascii.eqb_spec c ":"%char) as [->|]; [|done].
  by vm_compute.
Qed.

Lemma colon_not_ident_char : ident_char ":"%char = false.
Proof. reflexivity. Qed.

Lemma ident_rest_stop t d r :
  ident_char d = false -> ident_rest (t +:+ String d r) = ident_rest t.
Proof.
  intros Hd. induction t as [|c t IH].
  - rewrite append_nil_l. simpl. by rewrite Hd.
  - rewrite append_cons. simpl. destruct (ident_char c); [by f_equal | done].
Qed.

Lemma ident_rest_all t post :
  all_ident_char t = true -> starts_with_ident_char post = false ->
  ident_rest (t +:+ post) = t.
Proof.
  intros Ht Hp. induction t as [|c t IH].
  - rewrite append_nil_l. destruct post as [|d r]; [done |]. simpl in *.
    by rewrite Hp.
  - simpl in Ht. apply andb_true_iff in Ht as [Hc Ht].
    rewrite append_cons. simpl. rewrite Hc. f_equal. by apply IH.
Qed.

Lemma match_at_boundary prev c t d rest :
  ident_char d = false ->
  match_at prev (String c (t +:+ String d rest)) = match_at prev (String c t).
Proof.
  intros Hd. destruct t as [|h t].
  - rewrite append_nil_l. simpl.
    assert (ident_start d = false) as ->; [|by rewrite andb_false_r].
    destruct (ident_start d) eqn:E; [|done].
    apply ident_start_char in E. congruence.
  - rewrite append_cons. simpl. by rewrite ident_rest_stop.
Qed.

Lemma match_at_length prev c t name :
  match_at prev (String c t) = Some name ->
  String.length name <= String.length (ident_rest t).
Proof.
  destruct t as [|h t]; simpl; [done |].
  destruct (not_after_colon prev && is_colon c && ident_start h) eqn:E;
    [|done].
  intros [= <-]. apply andb_true_iff in E as [_ Hh].
  by rewrite (ident_start_char h Hh).
Qed.

(** A unit outside the identifier class ends whatever match is under way,
    so the walk of the text before it does not depend on what follows. *)
Lemma scan_boundary pre k prev d rest :
  ident_char d = false ->
  k <= String.length (ident_rest pre) ->
  scan k prev (pre +:+ String d rest)
  = scan k prev pre ++ scan 0 (last_unit prev pre) (String d rest).
Proof.
  intros Hd. revert k prev.
  induction pre as [|c t IH]; intros k prev Hk.
  - simpl in Hk. assert (k = 0) as -> by lia. by rewrite append_nil_l.
  - rewrite append_cons. cbn [scan last_unit]. destruct k as [|k].
    + rewrite match_at_boundary by done.
      destruct (match_at prev (String c t)) as [name|] eqn:E.
      * rewrite <- app_comm_cons. f_equal. apply IH.
        by eapply match_at_length.
      * rewrite <- app_comm_cons. f_equal. apply IH. lia.
    + apply IH. simpl in Hk. destruct (ident_char c); simpl in Hk; lia.
Qed.

Lemma scan_ident_text w prev post :
  all_ident_char w = true ->
  scan 0 prev (w +:+ post) = text_of w ++ scan 0 (last_unit prev w) post.
Proof.
  revert prev. induction w as [|c t IH]; intros prev Hw.
  - by rewrite append_nil_l.
  - simpl in Hw. apply andb_true_iff in Hw as [Hc Ht].
    rewrite append_cons. cbn [scan text_of last_unit].
    assert (match_at prev (String c (t +:+ post)) = None) as ->.
    { unfold match_at. destruct (t +:+ post); [done |].
      by rewrite (ident_char_not_colon c Hc), andb_false_r. }
    rewrite <- app_comm_cons. f_equal. by apply IH.
Qed.

Lemma scan_skip w prev post :
  scan (String.length w) prev (w +:+ post) = scan 0 (last_unit prev w) post.
Proof.
  revert prev. induction w as [|c t IH]; intros prev.
  - by rewrite append_nil_l.
  - rewrite append_cons. simpl. apply IH.
Qed.

Lemma replace_pieces_app {St : Type} (f : string -> St -> string * St)
    ps1 ps2 st :
  replace_pieces f (ps1 ++ ps2) st
  = let '(out1, st1) := replace_pieces f ps1 st in
    let '(out2, st2) := replace_pieces f ps2 st1 in
    (out1 +:+ out2, st2).
Proof.
  revert st. induction ps1 as [|[c|name] ps1 IH]; intros st; simpl.
  - by destruct (replace_pieces f ps2 st).
  - rewrite IH. destruct (replace_pieces f ps1 st) as [o1 s1].
    by destruct (replace_pieces f ps2 s1).
  - destruct (f name st) as [rep s0]. rewrite IH.
    destruct (replace_pieces f ps1 s0) as [o1 s1].
    destruct (replace_pieces f ps2 s1) as [o2 s2].
    by rewrite append_assoc.
Qed.

Lemma replace_pieces_text {St : Type} (f : string -> St -> string * St) w st :
  replace_pieces f (text_of w) st = (w, st).
Proof. induction w as [|c t IH]; simpl; [done | by rewrite IH]. Qed.

Lemma last_unit_identifier w :
  identifier w = true -> exists c, last_unit None w = Some c /\ is_colon c = false.
Proof.
  destruct w as [|c t]; [done |]. simpl.
  intros [Hc Ht]%andb_true_iff. apply ident_start_char in Hc.
  revert c Hc Ht. induction t as [|d t IH]; intros c Hc Ht; simpl.
  - exists c. split; [done | by apply ident_char_not_colon].
  - simpl in Ht. apply andb_true_iff in Ht as [Hd Ht]. by apply IH.
Qed.

Lemma identifier_all w : identifier w = true -> all_ident_char w = true.
Proof.
  destruct w as [|c t]; [done |]. simpl.
  intros [Hc Ht]%andb_true_iff. by rewrite (ident_start_char c Hc), Ht.
Qed.

Lemma last_unit_app prev a b :
  last_unit prev (a +:+ b) = last_unit (last_unit prev a) b.
Proof.
  revert prev. induction a as [|c t IH]; intros prev; [done |].
  rewrite append_cons. simpl. apply IH.
Qed.

(** The walk around a cast token [::w]. *)
Lemma scan_cast pre w post :
  identifier w = true ->
  scan 0 None (pre +:+ "::" +:+ w +:+ post)
  = scan 0 None pre ++ text_of ("::" +:+ w) ++ scan 0 (last_unit None w) post.
Proof.
  intros Hw.
  change (pre +:+ "::" +:+ w +:+ post)
    with (pre +:+ String ":" (String ":" (w +:+ post))).
  rewrite scan_boundary by (done || lia). f_equal.
  change ("::" +:+ w) with (String ":" (String ":" w)).
  cbn [text_of]. cbn [scan].
  assert (match_at (last_unit None pre)
            (String ":" (String ":" (w +:+ post))) = None) as ->.
  { simpl. by rewrite andb_false_r. }
  f_equal.
  assert (match_at (Some ":"%char) (String ":" (w +:+ post)) = None) as ->.
  { unfold match_at. by destruct (w +:+ post). }
  f_equal. rewrite scan_ident_text by (by apply identifier_all).
  f_equal. destruct w as [|c t]; [done |]. reflexivity.
Qed.

(** The walk around a single colon followed by an identifier. *)
Lemma scan_placeholder pre name post :
  ends_with_colon pre = false ->
  identifier name = true ->
  starts_with_ident_char post = false ->
  scan 0 None (pre +:+ ":" +:+ name +:+ post)
  = scan 0 None pre ++ Match name :: scan 0 (last_unit None name) post.
Proof.
  intros Hpre Hn Hpost.
  change (pre +:+ ":" +:+ name +:+ post)
    with (pre +:+ String ":" (name +:+ post)).
  rewrite scan_boundary by (done || lia). f_equal.
  destruct name as [|h t]; [done |]. simpl in Hn.
  apply andb_true_iff in Hn as [Hh Ht].
  rewrite append_cons. cbn [scan].
  assert (match_at (last_unit None pre)
            (String ":" (String h (t +:+ post))) = Some (String h t)) as ->.
  { simpl. rewrite Hh, ident_rest_all by done.
    assert (not_after_colon (last_unit None pre) = true) as ->; [|done].
    unfold ends_with_colon in Hpre. unfold not_after_colon.
    destruct (last_unit None pre); [by rewrite Hpre | done]. }
  f_equal. apply (scan_skip (String h t) (Some ":"%char) post).
Qed.

(** C2. A cast token (two colons, then an identifier) is copied to the
    output as it stands and leaves the parser's state, hence parameterOrder,
    as it was, also right after a placeholder; [:id::int] becomes [$1::int]
    with parameterOrder [id].  Conversely a colon that no colon precedes
    and that an identifier follows is always a match of the walk, is
    rewritten by the replacer, and its name is in parameterOrder. *)
Theorem type_casts_are_not_placeholders :
  (forall pre w post : string,
     identifier w = true ->
     replace replacer (pre +:+ "::" +:+ w +:+ post) parse_init
     = let '(out1, st1) := replace replacer pre parse_init in
       let '(out2, st2) :=
         replace_pieces replacer (scan 0 (last_unit None w) post) st1 in
       (out1 +:+ "::" +:+ w +:+ out2, st2))
  /\ (forall pre w : string,
        identifier w = true ->
        parseNamedParameters (pre +:+ "::" +:+ w)
        = {| sql := sql (parseNamedParameters pre) +:+ "::" +:+ w;
             parameterOrder := parameterOrder (parseNamedParameters pre) |})
  /\ parseNamedParameters ":id::int"
     = {| sql := "$1::int"; parameterOrder := ["id"] |}
  /\ (forall pre name post : string,
        ends_with_colon pre = false ->
        identifier name = true ->
        starts_with_ident_char post = false ->
        replace replacer (pre +:+ ":" +:+ name +:+ post) parse_init
        = (let '(out1, st1) := replace replacer pre parse_init in
           let '(rep, st2) := replacer name st1 in
           let '(out2, st3) :=
             replace_pieces replacer (scan 0 (last_unit None name) post) st2 in
           (out1 +:+ rep +:+ out2, st3))
        /\ name ∈ parameterOrder
                    (parseNamedParameters (pre +:+ ":" +:+ name +:+ post))).
Proof.
  assert (Hcast : forall pre w post : string,
     identifier w = true ->
     replace replacer (pre +:+ "::" +:+ w +:+ post) parse_init
     = let '(out1, st1) := replace replacer pre parse_init in
       let '(out2, st2) :=
         replace_pieces replacer (scan 0 (last_unit None w) post) st1 in
       (out1 +:+ "::" +:+ w +:+ out2, st2)).
  { intros pre w post Hw. unfold replace.
    rewrite scan_cast by done. rewrite replace_pieces_app.
    destruct (replace_pieces replacer (scan 0 None pre) parse_init)
      as [out1 st1].
    rewrite replace_pieces_app, replace_pieces_text.
    destruct (replace_pieces replacer (scan 0 (last_unit None w) post) st1)
      as [out2 st2].
    by rewrite append_assoc. }
  split_and!; [done | | by vm_compute |].
  - intros pre w Hw. unfold parseNamedParameters.
    pose proof (Hcast pre w EmptyString Hw) as H.
    rewrite append_nil_r in H. rewrite H.
    destruct (replace replacer pre parse_init) as [out1 st1]. simpl.
    by rewrite append_nil_r.
  - intros pre name post Hpre Hn Hpost. split.
    + unfold replace. rewrite scan_placeholder by done.
      rewrite replace_pieces_app.
      destruct (replace_pieces replacer (scan 0 None pre) parse_init)
        as [out1 st1].
      cbn [replace_pieces].
      destruct (replacer name st1) as [rep st2].
      by destruct (replace_pieces replacer
                     (scan 0 (last_unit None name) post) st2).
    + destruct (parse_spec (pre +:+ ":" +:+ name +:+ post)) as [-> _].
      unfold Set_from. apply Set_fold_elem. right.
      unfold occurrences, matchAll. rewrite scan_placeholder by done.
      fold (names_of (scan 0 None pre
                      ++ Match name :: scan 0 (last_unit None name) post)).
      unfold names_of, defined.
      apply list_elem_of_omap. exists (Some name). split; [|done].
      clear. induction (scan 0 None pre) as [|[c|n] ps IH]; simpl.
      * left.
      * done.
      * by right.
Qed.

Lemma type_casts_are_not_placeholders_witness :
  identifier "date" = true
  /\ parseNamedParameters ("SELECT :d" +:+ "::" +:+ "date")
     = {| sql := sql (parseNamedParameters "SELECT :d") +:+ "::" +:+ "date";
          parameterOrder := parameterOrder (parseNamedParameters "SELECT :d") |}
  /\ ends_with_colon "WHERE id = " = false
  /\ starts_with_ident_char "::int" = false
  /\ "id" ∈ parameterOrder
              (parseNamedParameters ("WHERE id = " +:+ ":" +:+ "id" +:+ "::int")).
Proof.
  split; [reflexivity |]. split.
  - exact (proj1 (proj2 type_casts_are_not_placeholders)
             "SELECT :d" "date" eq_refl).
  - split; [reflexivity |]. split; [reflexivity |].
    exact (proj2 (proj2 (proj2 (proj2 type_casts_are_not_placeholders))
             "WHERE id = " "id" "::int" eq_refl eq_refl eq_refl)).
Defined.

(* ===================================================================== *)
(** * Properties of the schema validator                                  *)
(* ===================================================================== *)





(** ** The validator built from a schema *)












(** When the code generator throws, convertJsonSchemaToZod hands out the
    validator of the manual conversion; when it returns, the validator is
    whatever evaluating the generated text gives. *)
Lemma convertJsonSchemaToZod_cases jsonSchemaToZod evalZodSchema jsonSchema :
  match jsonSchemaToZod jsonSchema with
  | inl _ =>
      convertJsonSchemaToZod jsonSchemaToZod evalZodSchema jsonSchema
      = createZodSchemaFromJsonSchemaManual jsonSchema
  | inr text =>
      convertJsonSchemaToZod jsonSchemaToZod evalZodSchema jsonSchema
      = inr (evalZodSchema text)
  end.
Proof. unfold convertJsonSchemaToZod. by destruct (jsonSchemaToZod jsonSchema). Qed.

(** The fields declared to the protocol layer are those of the manual
    validator. *)
Lemma convertJsonSchemaToMcpZod_manual jsonSchema shape :
  convertJsonSchemaToMcpZod jsonSchema = inr shape ->
  createZodSchemaFromJsonSchemaManual jsonSchema = inr (ZObject shape).
Proof.
  unfold convertJsonSchemaToMcpZod, createZodSchemaFromJsonSchemaManual.
  by intros ->.
Qed.




(* ===================================================================== *)
(** * Properties of the response envelope                                 *)
(* ===================================================================== *)

Lemma stage_of_cons earlier msg msgs :
  stage_of earlier (msg :: msgs) = stage_of (" while " +:+ msg) msgs.
Proof.
  unfold stage_of. destruct msgs as [|m msgs]; [done |].
  change (last (msg :: m :: msgs)) with (last (m :: msgs)).
  destruct (last (m :: msgs)) eqn:E; [done |].
  by apply last_None in E.
Qed.

Lemma stage_of_app earlier a b :
  stage_of (stage_of earlier a) b = stage_of earlier (a ++ b).
Proof.
  revert earlier. induction a as [|x a IH]; intros earlier; [done |].
  rewrite <- app_comm_cons, !stage_of_cons. apply IH.
Qed.

Lemma run_stage {A : Type} (p : Prog A) stage w :
  (run p stage w).1.2 = stage_of stage (logged p w).
Proof.
  revert stage w. induction p as [a|e|msg k IH|X m k IH]; intros stage w;
    simpl; try done.
  - by rewrite IH, stage_of_cons.
  - destruct (m w) as [[e|x] w']; [done | apply IH].
Qed.

(** C9. withErrorHandling always returns a response.  When the body, run
    to its end, throws or rejects, the response carries the error flag and
    the text "Error <operation><stage>: <message>", where the stage is
    " while <msg>" for the last message the body reported to the logger
    and empty when it reported none.  When the body returns a string, the
    response is the success envelope with that string as its single text
    content. *)
Theorem withErrorHandling_envelope (operation : string) (fn : Fn) (w : World) :
  let started := console_error ("Started " +:+ operation) w in
  (forall result msgs,
     outcome fn started = (inr result, msgs) ->
     (withErrorHandling operation fn w).1
     = {| content := [{| text := result |}]; isError := None |})
  /\ (forall error msgs,
        outcome fn started = (inl error, msgs) ->
        (withErrorHandling operation fn w).1
        = {| content :=
               [{| text := "Error " +:+ operation +:+ stage_of EmptyString msgs
                           +:+ ": " +:+ error_message error |}];
             isError := Some true |}).
Proof.
  intros started. unfold withErrorHandling, outcome. fold started.
  destruct fn as [body|body].
  - pose proof (run_stage body EmptyString started) as Hstage.
    destruct (run body EmptyString started) as [[[e|result] stage] w1];
      simpl in *; split; intros r msgs [= <- <-]; [|done].
    unfold createErrorResponse. simpl. by rewrite Hstage, append_assoc.
  - pose proof (run_stage body EmptyString started) as Hstage.
    destruct (run body EmptyString started) as [[[e|promise] stage] w1];
      simpl in *.
    + split; intros r msgs [= <- <-].
      unfold createErrorResponse. simpl. by rewrite Hstage, append_assoc.
    + pose proof (run_stage promise stage w1) as Hstage2.
      destruct (run promise stage w1) as [[[e|value] stage2] w2];
        simpl in *; split; intros r msgs [= <- <-]; [|done].
      unfold createErrorResponse. simpl.
      by rewrite Hstage2, Hstage, stage_of_app, append_assoc.
Qed.

Lemma withErrorHandling_envelope_witness :
  (withErrorHandling "operation"
     (Sync (Log "step 1" (Log "step 2" (Throw (Error "Failed")))))
     (fresh_world example_env)).1
  = {| content := [{| text := "Error operation while step 2: Failed" |}];
       isError := Some true |}
  /\ (withErrorHandling "async operation"
        (async (Log "starting" (Ret "Done")))
        (fresh_world example_env)).1
     = {| content := [{| text := "Done" |}]; isError := None |}.
Proof.
  split.
  - exact (proj2 (withErrorHandling_envelope "operation"
                    (Sync (Log "step 1" (Log "step 2" (Throw (Error "Failed")))))
                    (fresh_world example_env))
             (Error "Failed") ["step 1"; "step 2"] eq_refl).
  - exact (proj1 (withErrorHandling_envelope "async operation"
                    (async (Log "starting" (Ret "Done")))
                    (fresh_world example_env))
             "Done" ["starting"] eq_refl).
Defined.

(* ===================================================================== *)
(** * Properties of the saved-query lifecycle                             *)
(* ===================================================================== *)

(** C6. A save_query call without the overwrite flag for a name that is in
    the registry is rejected with a conflict that names the tool; no file
    is written and no directory made, the registry map and the server's
    table are as they were, and no outgoing call was made. *)
Theorem save_query_conflict_touches_nothing
    (params : SaveQueryToolParams.t) (w : World) :
  is_Some (registeredTools w !! SaveQueryToolParams.tool_name params) ->
  default false (SaveQueryToolParams.overwrite params) = false ->
  (SaveQuery.handler params w).1
  = {| content :=
         [{| text := "Error saving tool '"
                     +:+ SaveQueryToolParams.tool_name params
                     +:+ "': Tool with name '"
                     +:+ SaveQueryToolParams.tool_name params
                     +:+ "' already exists. Set overwrite=true to update it." |}];
       isError := Some true |}
  /\ untouched w (SaveQuery.handler params w).2.
Proof.
  intros Hin Hover. unfold SaveQuery.handler, withErrorHandling, async.
  cbn [run pbind act gets]. rewrite bool_decide_eq_true_2 by done.
  rewrite Hover. cbn [andb negb run]. unfold createErrorResponse. cbn.
  rewrite append_nil_r. by rewrite !append_assoc.
Qed.

Lemma save_query_conflict_touches_nothing_witness :
  (SaveQuery.handler save_get_user (world_with_get_user example_env)).1
  = {| content :=
         [{| text := "Error saving tool 'get_user': Tool with name 'get_user' already exists. Set overwrite=true to update it." |}];
       isError := Some true |}
  /\ untouched (world_with_get_user example_env)
       (SaveQuery.handler save_get_user (world_with_get_user example_env)).2.
Proof.
  apply (save_query_conflict_touches_nothing save_get_user
           (world_with_get_user example_env)).
  - exists "get_user". by vm_compute.
  - reflexivity.
Defined.

(** C7. A delete_saved_query call for a protected name is rejected,
    whatever the registry holds: the handle's remove is not called, the
    registry map and the server's table are as they were, and no file is
    deleted. *)
Theorem delete_protected_tool_rejected
    (params : DeleteSavedQueryToolParams.t) (w : World) :
  DeleteSavedQueryToolParams.tool_name params ∈ DeleteSavedQuery.PROTECTED_TOOLS ->
  (DeleteSavedQuery.handler params w).1
  = {| content :=
         [{| text := "Error deleting tool '"
                     +:+ DeleteSavedQueryToolParams.tool_name params
                     +:+ "': Cannot delete core tool '"
                     +:+ DeleteSavedQueryToolParams.tool_name params +:+ "'" |}];
       isError := Some true |}
  /\ untouched w (DeleteSavedQuery.handler params w).2.
Proof.
  intros Hin. unfold DeleteSavedQuery.handler, withErrorHandling.
  rewrite bool_decide_eq_true_2 by done.
  cbn [run]. unfold createErrorResponse. cbn.
  rewrite append_nil_r. by rewrite !append_assoc.
Qed.

Lemma delete_protected_tool_rejected_witness :
  (DeleteSavedQuery.handler
     {| DeleteSavedQueryToolParams.tool_name := "save_query" |}
     (world_with_get_user example_env)).1
  = {| content :=
         [{| text := "Error deleting tool 'save_query': Cannot delete core tool 'save_query'" |}];
       isError := Some true |}
  /\ untouched (world_with_get_user example_env)
       (DeleteSavedQuery.handler
          {| DeleteSavedQueryToolParams.tool_name := "save_query" |}
          (world_with_get_user example_env)).2.
Proof.
  apply (delete_protected_tool_rejected
           {| DeleteSavedQueryToolParams.tool_name := "save_query" |}
           (world_with_get_user example_env)).
  apply (bool_decide_unpack _). by vm_compute.
Defined.

(** ** Saving, then loading *)

Lemma keeps_files_bind {A B : Type} (m : M A) (f : A -> M B) :
  keeps_files m -> (forall a, keeps_files (f a)) -> keeps_files (Runtime.bind m f).
Proof.
  intros Hm Hf w. unfold Runtime.bind. specialize (Hm w).
  destruct (m w) as [[e|a] w1]; simpl in *; [done |].
  destruct (Hf a w1) as [-> ->]. done.
Qed.

Lemma keeps_files_perform c : keeps_files (perform c).
Proof. intros w. unfold perform. by destruct (faults (env w) c). Qed.

Lemma keeps_files_lift {A : Type} (r : exn + A) : keeps_files (lift r).
Proof. done. Qed.

Lemma keeps_files_createDynamicToolHandler toolConfig :
  keeps_files (createDynamicToolHandler toolConfig).
Proof.
  intros w. unfold createDynamicToolHandler.
  by destruct (convertJsonSchemaToZod _ _ _).
Qed.

Lemma keeps_files_registerToolWithServer toolName toolConfig :
  keeps_files (SaveQuery.registerToolWithServer toolName toolConfig).
Proof.
  unfold SaveQuery.registerToolWithServer.
  apply keeps_files_bind; [apply keeps_files_createDynamicToolHandler |].
  intros cb. apply keeps_files_bind; [apply keeps_files_lift |].
  intros shape. apply keeps_files_bind.
  - unfold server_registerTool.
    apply keeps_files_bind; [apply keeps_files_perform |]. intros _.
    apply keeps_files_bind; [done |]. intros [|]; [done |].
    apply keeps_files_bind; done.
  - intros handle. apply keeps_files_bind; done.
Qed.

Lemma keeps_files_updateExistingTool toolName toolConfig :
  keeps_files (SaveQuery.updateExistingTool toolName toolConfig).
Proof.
  unfold SaveQuery.updateExistingTool.
  apply keeps_files_bind; [done |]. intros [handle|]; [|done].
  apply keeps_files_bind; [apply keeps_files_createDynamicToolHandler |].
  intros cb. apply keeps_files_bind; [apply keeps_files_lift |].
  intros shape. unfold tool_update.
  apply keeps_files_bind; [apply keeps_files_perform | done].
Qed.

(** When saveToolToFile returns, the file of the tool holds the document
    of the configuration. *)
Lemma saveToolToFile_stores toolName config w w' :
  saveToolToFile toolName config w = (inr tt, w') ->
  env w' = env w
  /\ files w' !! tool_file toolName w' = Some (config_document config).
Proof.
  unfold saveToolToFile, ensureDataDirectory, Runtime.bind, try_catch, gets,
    existsSync, mkdirSync, writeFileSync, perform, modify, Runtime.bind, throw,
    ret.
  cbn.
  repeat match goal with
         | |- context [match faults ?e ?c with _ => _ end] =>
             destruct (faults e c); cbn
         | |- context [if negb ?b then _ else _] => destruct b; cbn
         end;
    intros [= <-]; cbn; (split; [done |]); apply lookup_insert_eq.
Qed.

Lemma validateJsonSchema_Obj schema :
  validateJsonSchema schema = true -> exists fields, schema = Obj fields.
Proof. destruct schema; try done. intros _. by eexists. Qed.

Lemma roundtrip_strings (l : list string) :
  (fix each (l : list value) : list value :=
     match l with
     | [] => []
     | Undefined :: r => Null :: each r
     | x :: r => JSON_roundtrip x :: each r
     end) (map Str l) = map Str l.
Proof. induction l as [|x l IH]; simpl; [done | by rewrite IH]. Qed.

Lemma forallb_is_string (l : list string) : forallb is_string (map Str l) = true.
Proof. by induction l. Qed.

Lemma map_string_of (l : list string) : map string_of (map Str l) = l.
Proof. induction l as [|x l IH]; simpl; [done | by rewrite IH]. Qed.

Lemma roundtrip_config config fields :
  parameter_schema config = Obj fields ->
  JSON_roundtrip (config_value config)
  = Obj [("name", Str (Types.name config));
         ("description", Str (description config));
         ("sql_query", Str (sql_query config));
         ("sql_prepared", Str (sql_prepared config));
         ("parameter_schema", JSON_roundtrip (Obj fields));
         ("parameter_order", Arr (map Str (parameter_order config)))].
Proof.
  intros Hschema. unfold config_value. rewrite Hschema.
  cbn [JSON_roundtrip]. do 6 f_equal. do 3 f_equal. apply roundtrip_strings.
Qed.

(** Loading a file that holds the document of a configuration gives the
    configuration's strings and parameter order back. *)
Lemma loadToolFromFile_stored toolName config fields w :
  parameter_schema config = Obj fields ->
  files w !! tool_file toolName w = Some (config_document config) ->
  faults (env w) (FsReadFile (tool_file toolName w)) = None ->
  exists loaded,
    (loadToolFromFile toolName w).1 = inr (Some loaded)
    /\ Types.name loaded = Types.name config
    /\ sql_query loaded = sql_query config
    /\ sql_prepared loaded = sql_prepared config
    /\ parameter_order loaded = parameter_order config.
Proof.
  intros Hschema Hfile Hfault.
  unfold config_document in Hfile. rewrite (roundtrip_config _ _ Hschema) in Hfile.
  unfold loadToolFromFile, Runtime.bind, try_catch, gets, existsSync,
    readFileSync, perform, Runtime.bind, gets, lift, throw, ret.
  cbn. unfold tool_file, TOOLS_DIR, DATA_DIR in *.
  set (file := join_path _ _) in *.
  rewrite Hfile. rewrite bool_decide_eq_true_2 by done. cbn.
  rewrite Hfault. cbn. rewrite Hfile.
  cbn -[JSON_roundtrip]. unfold isValidToolConfig.
  cbn -[JSON_roundtrip]. rewrite forallb_is_string. cbn -[JSON_roundtrip].
  eexists. split; [reflexivity |]. cbn -[JSON_roundtrip].
  by rewrite map_string_of.
Qed.

(** C8. After a save_query call that succeeds, loading the tool by name
    (the read itself not failing) yields a definition whose sql_query is
    the saved template and whose sql_prepared and parameter_order are what
    parseNamedParameters makes of that template. *)
Theorem save_then_load_round_trip (params : SaveQueryToolParams.t) (w : World) :
  isError (SaveQuery.handler params w).1 = None ->
  faults (env w)
    (FsReadFile (tool_file (SaveQueryToolParams.tool_name params) w)) = None ->
  exists loaded,
    (loadToolFromFile (SaveQueryToolParams.tool_name params)
       (SaveQuery.handler params w).2).1 = inr (Some loaded)
    /\ Types.name loaded = SaveQueryToolParams.tool_name params
    /\ sql_query loaded = SaveQueryToolParams.sql_query params
    /\ sql_prepared loaded
       = sql (parseNamedParameters (SaveQueryToolParams.sql_query params))
    /\ parameter_order loaded
       = parameterOrder
           (parseNamedParameters (SaveQueryToolParams.sql_query params)).
Proof.
  destruct params as [toolName desc query schema over].
  unfold SaveQuery.handler, withErrorHandling, async.
  cbn -[saveToolToFile SaveQuery.registerToolWithServer
        SaveQuery.updateExistingTool validateJsonSchema parseNamedParameters
        extractNamedParameters tool_file loadToolFromFile].
  intros Hok Hfault. revert Hok.
  set (exists_ := bool_decide _).
  destruct (validateJsonSchema schema) eqn:Hvalid.
  2:{ destruct exists_, (default false over); cbn; discriminate. }
  destruct (validateJsonSchema_Obj _ Hvalid) as [fields ->].
  destruct (parseNamedParameters query) as [prepared order] eqn:Hparse.
  set (config := {| Types.name := toolName; Types.description := desc;
                    Types.sql_query := query; Types.sql_prepared := prepared;
                    Types.parameter_schema := Obj fields;
                    Types.parameter_order := order |}).
  assert (forall w1 w2,
            env w1 = env w ->
            saveToolToFile toolName config w1 = (inr tt, w2) ->
            forall w3,
              files w3 = files w2 -> env w3 = env w2 ->
              exists loaded,
                (loadToolFromFile toolName w3).1 = inr (Some loaded)
                /\ Types.name loaded = toolName
                /\ sql_query loaded = query
                /\ sql_prepared loaded = prepared
                /\ parameter_order loaded = order) as Hload.
  { intros w1 w2 Henv1 Hsave w3 Hfiles Henv3.
    apply saveToolToFile_stores in Hsave as [Henv2 Hstored].
    apply (loadToolFromFile_stored toolName config fields); [done | |].
    - unfold tool_file, TOOLS_DIR, DATA_DIR in *.
      rewrite Hfiles, Henv3. done.
    - unfold tool_file, TOOLS_DIR, DATA_DIR in *.
      rewrite Henv3, Henv2, Henv1. done. }
  destruct exists_, (default false over);
    cbn -[saveToolToFile SaveQuery.registerToolWithServer
          SaveQuery.updateExistingTool tool_file loadToolFromFile];
    try discriminate.
  - (* update *)
    match goal with
    | |- context [saveToolToFile toolName config ?w1] =>
        destruct (saveToolToFile toolName config w1) as [[e|[]] w2] eqn:Hsave;
        cbn -[SaveQuery.updateExistingTool tool_file loadToolFromFile];
        [discriminate |]
    end.
    match goal with
    | |- context [SaveQuery.updateExistingTool toolName config ?w3] =>
        pose proof (keeps_files_updateExistingTool toolName config w3) as Hkeep;
        destruct (SaveQuery.updateExistingTool toolName config w3)
          as [[e|[]] w4];
        cbn -[tool_file loadToolFromFile] in *; [discriminate |]
    end.
    intros _. eapply Hload; [| exact Hsave | |]; cbn; tauto.
  - (* create *)
    match goal with
    | |- context [saveToolToFile toolName config ?w1] =>
        destruct (saveToolToFile toolName config w1) as [[e|[]] w2] eqn:Hsave;
        cbn -[SaveQuery.registerToolWithServer tool_file loadToolFromFile];
        [discriminate |]
    end.
    match goal with
    | |- context [SaveQuery.registerToolWithServer toolName config ?w3] =>
        pose proof (keeps_files_registerToolWithServer toolName config w3)
          as Hkeep;
        destruct (SaveQuery.registerToolWithServer toolName config w3)
          as [[e|handle] w4];
        cbn -[tool_file loadToolFromFile] in *; [discriminate |]
    end.
    intros _. eapply Hload; [| exact Hsave | |]; cbn; tauto.
  - (* create, overwrite left out *)
    match goal with
    | |- context [saveToolToFile toolName config ?w1] =>
        destruct (saveToolToFile toolName config w1) as [[e|[]] w2] eqn:Hsave;
        cbn -[SaveQuery.registerToolWithServer tool_file loadToolFromFile];
        [discriminate |]
    end.
    match goal with
    | |- context [SaveQuery.registerToolWithServer toolName config ?w3] =>
        pose proof (keeps_files_registerToolWithServer toolName config w3)
          as Hkeep;
        destruct (SaveQuery.registerToolWithServer toolName config w3)
          as [[e|handle] w4];
        cbn -[tool_file loadToolFromFile] in *; [discriminate |]
    end.
    intros _. eapply Hload; [| exact Hsave | |]; cbn; tauto.
Qed.

Lemma save_then_load_round_trip_witness :
  isError (SaveQuery.handler save_get_user (fresh_world example_env)).1 = None
  /\ exists loaded,
       (loadToolFromFile "get_user" (world_with_get_user example_env)).1
       = inr (Some loaded)
       /\ Types.name loaded = "get_user"
       /\ sql_query loaded = "SELECT * FROM users WHERE id = :user_id"
       /\ sql_prepared loaded
          = sql (parseNamedParameters "SELECT * FROM users WHERE id = :user_id")
       /\ parameter_order loaded
          = parameterOrder
              (parseNamedParameters "SELECT * FROM users WHERE id = :user_id").
Proof.
  split; [reflexivity |].
  apply (save_then_load_round_trip save_get_user (fresh_world example_env));
    reflexivity.
Defined.

(* ===================================================================== *)
(** * Ad-hoc execution and saved tools                                    *)
(* ===================================================================== *)

(** C4, as the code has it.  The saved tool's handler validates its input
    first, which the ad-hoc handler does not: input the validator rejects
    ends there, with no call to the executor.  When the validator accepts
    the input and leaves the values of the placeholders as they are, and
    the definition's prepared SQL and parameter order are those of the
    query text, both handlers make the same outgoing calls, and either
    both succeed with the same response or both fail with the same cause,
    each naming its own operation and stage. *)
Theorem dynamic_handler_and_ad_hoc_execution
    (query : string) (toolConfig : SavedToolConfig) (paramSchema : ZodSchema)
    (params : value) (w : World) :
  let ad_hoc := ExecuteSqlQuery.handler query (Some params) w in
  let saved := dynamicHandler (DynamicTool toolConfig paramSchema) params w in
  let tool := "executing tool '" +:+ Types.name toolConfig +:+ "'" in
  (forall issues,
     parse paramSchema params = Invalid issues ->
     calls saved.2 = calls w
     /\ saved.1 = error_response (tool +:+ " while validating parameters")
                    (validation_error issues))
  /\ (forall validated,
        sql_prepared toolConfig = sql (parseNamedParameters query) ->
        parameter_order toolConfig = parameterOrder (parseNamedParameters query) ->
        parse paramSchema params = Valid validated ->
        mapToPositional validated (parameter_order toolConfig)
        = mapToPositional params (parameter_order toolConfig) ->
        calls saved.2 = calls ad_hoc.2
        /\ ((isError ad_hoc.1 = None /\ saved.1 = ad_hoc.1)
            \/ exists cause,
                 (ad_hoc.1 = error_response
                               "executing SQL query while executing query" cause
                  /\ saved.1 = error_response
                                 (tool +:+ " while executing SQL query") cause)
                 \/ (ad_hoc.1 = error_response
                                  "executing SQL query while resolving type names"
                                  cause
                     /\ saved.1 = error_response
                                    (tool +:+ " while resolving type names")
                                    cause))).
Proof.
  intros ad_hoc saved tool. subst ad_hoc saved.
  unfold dynamicHandler, ExecuteSqlQuery.handler, withErrorHandling, async.
  split.
  - intros issues Hparse.
    cbn -[parse stringify parseNamedParameters]. rewrite Hparse.
    cbn -[stringify]. unfold error_response, validation_error, tool.
    split; [done |]. by rewrite !append_assoc.
  - intros validated Hsql Horder Hparse Hsame.
    destruct (parseNamedParameters query) as [prepared order].
    destruct toolConfig as [n d q p s o]. simpl in Hsql, Horder, Hsame, tool.
    subst p o.
    cbn -[parse stringify getTypeNames mapToPositional]. rewrite Hparse.
    cbn -[stringify getTypeNames mapToPositional]. rewrite Hsame.
    unfold pool_query, Runtime.bind, gets, modify, lift.
    cbn -[stringify getTypeNames mapToPositional].
    destruct (database (env w) (calls w) prepared (mapToPositional params order))
      as [e|result]; cbn -[stringify getTypeNames mapToPositional].
    + split; [done |]. right. exists (error_message e). left.
      unfold error_response, tool. by rewrite !append_assoc.
    + unfold getTypeNames.
      destruct (map Pg.dataTypeID (Pg.fields result)) as [|oid oids] eqn:Hoids.
      * cbn -[stringify]. split; [done |]. by left.
      * unfold pool_query, Runtime.bind, gets, modify, lift.
        cbn -[stringify]. rewrite ?Hoids.
        match goal with
        | |- context [database ?e ?cs ?text ?values] =>
            destruct (database e cs text values) as [e'|names]
        end; cbn -[stringify].
        -- split; [done |]. right. exists (error_message e'). right.
           unfold error_response, tool. by rewrite !append_assoc.
        -- rewrite ?Hoids. split; [done |]. by left.
Qed.

Lemma dynamic_handler_and_ad_hoc_execution_witness :
  calls (dynamicHandler get_user_handler (Obj [("user_id", Num (Int 7))])
           (world_with_get_user example_env)).2
  = calls (ExecuteSqlQuery.handler get_user_query
             (Some (Obj [("user_id", Num (Int 7))]))
             (world_with_get_user example_env)).2
  /\ (dynamicHandler get_user_handler (Obj [("user_id", Num (Int 7))])
         (world_with_get_user example_env)).1
     = (ExecuteSqlQuery.handler get_user_query
          (Some (Obj [("user_id", Num (Int 7))]))
          (world_with_get_user example_env)).1.
Proof.
  destruct (proj2 (dynamic_handler_and_ad_hoc_execution get_user_query
                     get_user_config (ZObject [("user_id", ZNumber true)])
                     (Obj [("user_id", Num (Int 7))])
                     (world_with_get_user example_env))
              (Obj [("user_id", Num (Int 7))])
              eq_refl eq_refl eq_refl eq_refl) as [Hcalls Hresp].
  split; [exact Hcalls |].
  destruct Hresp as [[_ Hsame]|[cause [[Hfail _]|[Hfail _]]]];
    [exact Hsame | discriminate Hfail | discriminate Hfail].
Defined.

(** C4, as the specification words it, fails.  The handler that saving
    [get_user] registers rejects an input without [user_id] and never
    reaches the executor, while the ad-hoc handler runs the same query
    text with an absent value and succeeds.  And with the same valid
    input against a database that refuses the query, the two error texts
    differ. *)
Lemma dynamic_handler_diverges_from_ad_hoc :
  callback <$> (server_tools (world_with_get_user example_env) !! "get_user")
  = Some get_user_handler
  /\ isError (ExecuteSqlQuery.handler get_user_query (Some (Obj []))
                (world_with_get_user example_env)).1 = None
  /\ calls (ExecuteSqlQuery.handler get_user_query (Some (Obj []))
              (world_with_get_user example_env)).2
     = calls (world_with_get_user example_env)
       ++ [PoolQuery "SELECT * FROM users WHERE id = $1" [Undefined];
           PoolQuery typeNames_query [Arr [Num (Int 23)]]]
  /\ (dynamicHandler get_user_handler (Obj [])
         (world_with_get_user example_env)).1
     = error_response "executing tool 'get_user' while validating parameters"
         "Parameter validation error: user_id: Required"
  /\ calls (dynamicHandler get_user_handler (Obj [])
              (world_with_get_user example_env)).2
     = calls (world_with_get_user example_env)
  /\ (ExecuteSqlQuery.handler get_user_query
        (Some (Obj [("user_id", Num (Int 7))]))
        (world_with_get_user refusing_env)).1
     = error_response "executing SQL query while executing query"
         "Connection refused"
  /\ (dynamicHandler get_user_handler (Obj [("user_id", Num (Int 7))])
         (world_with_get_user refusing_env)).1
     = error_response "executing tool 'get_user' while executing SQL query"
         "Connection refused".
Proof. by vm_compute. Qed.

(* ===================================================================== *)
(** * Cases of the repository's tests, replayed on the embedding          *)
(* ===================================================================== *)

(** test/unit/parameterMapper.test.ts *)

Example test_multiple_type_casts :
  parseNamedParameters
    "SELECT created_at::date, updated_at::timestamp FROM users WHERE id = :id::int"
  = {| sql := "SELECT created_at::date, updated_at::timestamp FROM users WHERE id = $1::int";
       parameterOrder := ["id"] |}.
Proof. by vm_compute. Qed.

Example test_array_type_cast :
  parseNamedParameters "SELECT * FROM users WHERE id = ANY(:ids::int[])"
  = {| sql := "SELECT * FROM users WHERE id = ANY($1::int[])";
       parameterOrder := ["ids"] |}.
Proof. by vm_compute. Qed.

Example test_mixed_duplicates :
  parseNamedParameters
    "SELECT * FROM t WHERE a = :x AND b = :y AND c = :x AND d = :z"
  = {| sql := "SELECT * FROM t WHERE a = $1 AND b = $2 AND c = $1 AND d = $3";
       parameterOrder := ["x"; "y"; "z"] |}.
Proof. by vm_compute. Qed.

Example test_rejects_leading_digit :
  parseNamedParameters "SELECT * FROM t WHERE a = :123abc"
  = {| sql := "SELECT * FROM t WHERE a = :123abc"; parameterOrder := [] |}.
Proof. by vm_compute. Qed.

Example test_inside_single_quotes :
  parameterOrder
    (parseNamedParameters
       "SELECT * FROM t WHERE id = :id AND name = ':not_a_param'")
  = ["id"; "not_a_param"].
Proof. by vm_compute. Qed.

Example test_extract_underscores_and_numbers :
  extractNamedParameters
    "SELECT * FROM t WHERE a = :param_1 AND b = :_param2 AND c = :p3"
  = ["param_1"; "_param2"; "p3"].
Proof. by vm_compute. Qed.

Example test_map_missing_parameter :
  mapToPositional (Obj [("a", Num (Int 1))]) ["a"; "b"]
  = [Num (Int 1); Undefined].
Proof. reflexivity. Qed.

(** test/unit/jsonSchemaValidator.test.ts *)

Example test_accepts_real_world_schema :
  validateJsonSchema
    (Obj [("type", Str "object");
          ("properties",
           Obj [("user_id", Obj [("type", Str "integer");
                                 ("description", Str "The user ID")]);
                ("include_inactive", Obj [("type", Str "boolean");
                                          ("default", Bool false)]);
                ("limit", Obj [("type", Str "integer");
                               ("minimum", Num (Int 1));
                               ("maximum", Num (Int 100));
                               ("default", Num (Int 10))])]);
          ("required", Arr [Str "user_id"])])
  = true.
Proof. reflexivity. Qed.

Example test_rejects_array :
  validateJsonSchema (Arr [Num (Int 1); Num (Int 2); Num (Int 3)]) = false.
Proof. reflexivity. Qed.

Example test_default_values_applied :
  match createZodSchemaFromJsonSchemaManual
          (Obj [("type", Str "object");
                ("properties",
                 Obj [("limit", Obj [("type", Str "integer");
                                     ("default", Num (Int 10))]);
                      ("offset", Obj [("type", Str "integer");
                                      ("default", Num (Int 0))])])]) with
  | inr validator => parse validator (Obj [])
  | inl _ => Invalid []
  end
  = Valid (Obj [("limit", Num (Int 10)); ("offset", Num (Int 0))]).
Proof. reflexivity. Qed.

Example test_non_object_schema_has_no_fields :
  convertJsonSchemaToMcpZod (Obj [("type", Str "string")]) = inr [].
Proof. reflexivity. Qed.

(** test/unit/responses.test.ts *)

Example test_sync_success :
  (withErrorHandling "sync operation" (Sync (Ret "Success result"))
     (fresh_world example_env))
  = ({| content := [{| text := "Success result" |}]; isError := None |},
     with_console
       (fun _ => ["Started sync operation"; "Finished sync operation"])
       (fresh_world example_env)).
Proof. reflexivity. Qed.

Example test_non_error_thrown :
  (withErrorHandling "operation" (Sync (Throw (JsThrown (Str "String error"))))
     (fresh_world example_env)).1
  = {| content := [{| text := "Error operation: Unknown error" |}];
       isError := Some true |}.
Proof. reflexivity. Qed.

(** The scenarios C and D of the specification: a second delete reports
    that the tool is not found; a type the resolver does not know is
    reported as "unknown". *)

Example scenario_C_second_delete :
  (DeleteSavedQuery.handler {| DeleteSavedQueryToolParams.tool_name := "get_user" |}
     (DeleteSavedQuery.handler
        {| DeleteSavedQueryToolParams.tool_name := "get_user" |}
        (world_with_get_user example_env)).2).1
  = {| content :=
         [{| text := "Error deleting tool 'get_user': Saved query 'get_user' not found" |}];
       isError := Some true |}.
Proof. by vm_compute. Qed.

Example scenario_D_unknown_type :
  nullish_or (Map_get (Num (Int 99)) [(Num (Int 23), Str "int4")]) (Str "unknown")
  = Str "unknown".
Proof. reflexivity. Qed.

(* ===================================================================== *)
(** * Further properties of the parameter mapper                          *)
(* ===================================================================== *)



(** ** The rewritten SQL holds no placeholder *)

Lemma text_of_app a b : text_of (a +:+ b) = text_of a ++ text_of b.
Proof.
  induction a as [|c a IH]; [done |]. rewrite append_cons. simpl.
  by rewrite IH.
Qed.

Lemma scan_no_colon w prev post :
  no_colon w = true ->
  scan 0 prev (w +:+ post) = text_of w ++ scan 0 (last_unit prev w) post.
Proof.
  revert prev. induction w as [|c t IH]; intros prev Hw.
  - by rewrite append_nil_l.
  - simpl in Hw. apply andb_true_iff in Hw as [Hc Ht].
    rewrite append_cons. cbn [scan text_of last_unit].
    assert (match_at prev (String c (t +:+ post)) = None) as ->.
    { unfold match_at. destruct (t +:+ post); [done |].
      apply negb_true_iff in Hc. by rewrite Hc, andb_false_r. }
    rewrite <- app_comm_cons. f_equal. by apply IH.
Qed.

Lemma pretty_N_go_no_colon (x : N) (s : string) :
  no_colon s = true -> no_colon (pretty_N_go x s) = true.
Proof.
  revert s. induction (N.lt_wf_0 x) as [x _ IH]; intros s Hs.
  destruct (decide (0 < x)%N) as [Hx|Hx].
  - rewrite pretty_N_go_step by done. apply IH.
    + apply N.div_lt; lia.
    + simpl. rewrite Hs, andb_true_r.
      unfold pretty_N_char. by repeat case_match.
  - assert (x = 0%N) as -> by lia. by rewrite pretty_N_go_0.
Qed.

Lemma pretty_nat_no_colon (n : nat) : no_colon (pretty n) = true.
Proof.
  unfold pretty, pretty_nat, pretty, pretty_N.
  case_decide; [done |]. by apply pretty_N_go_no_colon.
Qed.

(** What the replacer puts in place of a match: a dollar sign, then units
    none of which is a colon. *)
Lemma render_Match order name :
  exists rest,
    render order (Match name) = String "$" rest /\ no_colon rest = true.
Proof.
  unfold render. eexists. split; [reflexivity |].
  unfold String_of_position. destruct (position_of order name); [|done].
  apply pretty_nat_no_colon.
Qed.

Lemma last_unit_no_colon q w :
  no_colon w = true -> not_after_colon q = true ->
  not_after_colon (last_unit q w) = true.
Proof.
  revert q. induction w as [|c t IH]; intros q Hw Hq; [done |].
  simpl in *. apply andb_true_iff in Hw as [Hc Ht]. by apply IH.
Qed.

(** Walking the text rendered from a walk finds no match.  [p] is the unit
    before the current index of the original text, [q] the unit before
    the current index of the rendered text. *)
Lemma rendered_walk_is_text order s :
  forall k p q,
    k <= String.length (ident_rest s) ->
    match k with
    | 0 => not_after_colon q = not_after_colon p
    | S _ => not_after_colon q = true
    end ->
    scan 0 q (render_all order (scan k p s))
    = text_of (render_all order (scan k p s)).
Proof.
  induction s as [|c t IH]; intros k p q Hk Hinv; [done |].
  cbn [scan]. destruct k as [|k].
  - destruct (match_at p (String c t)) as [name|] eqn:Hm.
    + (* a match: the replacement is text, the walk resumes after it *)
      cbn [render_all foldr].
      fold (render_all order (scan (String.length name) (Some c) t)).
      destruct (render_Match order name) as (rest & Hr & Hrest).
      rewrite Hr.
      assert (no_colon (String "$" rest) = true) as Hnc by (by simpl).
      rewrite scan_no_colon by done. rewrite text_of_app. f_equal.
      apply IH; [by eapply match_at_length |].
      assert (exists n, String.length name = S n) as [n ->].
      { destruct t as [|h t']; [done |]. simpl in Hm.
        destruct (_ && _ && _) in Hm; [|done].
        injection Hm as <-. simpl. by eexists. }
      change (last_unit q (String "$" rest))
        with (last_unit (Some "$"%char) rest).
      by apply last_unit_no_colon.
    + (* no match here: none in the rendered text either *)
      cbn [render_all foldr render].
      fold (render_all order (scan 0 (Some c) t)).
      rewrite append_cons, append_nil_l. cbn [scan text_of].
      assert (match_at q (String c (render_all order (scan 0 (Some c) t)))
              = None) as ->.
      { unfold match_at.
        destruct (render_all order (scan 0 (Some c) t)) as [|h' o'] eqn:Ho;
          [done |].
        destruct (not_after_colon q && is_colon c) eqn:Hqc; [|done].
        apply andb_true_iff in Hqc as [Hq Hc]. rewrite Hinv in Hq.
        destruct t as [|h t']; [done |].
        simpl in Hm. rewrite Hq, Hc in Hm. simpl in Hm.
        destruct (ident_start h) eqn:Hh; [done |].
        (* the next unit is not the start of a match: it is copied *)
        cbn [scan] in Ho.
        assert (match_at (Some c) (String h t') = None) as Hnone.
        { unfold match_at. destruct t'; [done |]. simpl.
          by rewrite Hc. }
        rewrite Hnone in Ho. cbn [render_all foldr render] in Ho.
        rewrite append_cons, append_nil_l in Ho. injection Ho as <- _.
        by rewrite Hh. }
      f_equal. apply IH; [lia | done].
  - apply IH.
    + simpl in Hk. destruct (ident_char c); simpl in Hk; lia.
    + destruct k; [|done]. rewrite Hinv. simpl in Hk.
      destruct (ident_char c) eqn:Hc; simpl in Hk; [|lia].
      simpl. by rewrite (ident_char_not_colon c Hc).
Qed.

(** X2. Rewriting is idempotent: the SQL that parseNamedParameters returns
    holds no named placeholder, so parsing it again changes nothing and
    yields an empty parameter order. *)
Theorem parseNamedParameters_idempotent (sqlText : string) :
  parseNamedParameters (sql (parseNamedParameters sqlText))
  = {| sql := sql (parseNamedParameters sqlText); parameterOrder := [] |}.
Proof.
  destruct (parse_spec sqlText) as [_ ->].
  unfold parseNamedParameters at 1. unfold replace.
  rewrite (rendered_walk_is_text _ sqlText 0 None None) by (simpl; lia || done).
  by rewrite replace_pieces_text.
Qed.

Lemma scan_without_matches p s :
  names_of (scan 0 p s) = [] -> scan 0 p s = text_of s.
Proof.
  revert p. induction s as [|c t IH]; intros p; [done |].
  cbn [scan]. destruct (match_at p (String c t)); [done |].
  rewrite names_of_cons_Text. intros H. simpl. f_equal. by apply IH.
Qed.

(** X3. A query without placeholders is returned as it is, with an empty
    parameter order, whatever else it holds (casts, colons before digits,
    text in any script). *)
Theorem parseNamedParameters_without_placeholders (sqlText : string) :
  occurrences sqlText = [] ->
  parseNamedParameters sqlText = {| sql := sqlText; parameterOrder := [] |}.
Proof.
  intros Hnone. unfold parseNamedParameters, replace.
  rewrite scan_without_matches by done. by rewrite replace_pieces_text.
Qed.

Lemma parseNamedParameters_without_placeholders_witness :
  occurrences "SELECT created_at::date, '12:30' FROM t" = []
  /\ parseNamedParameters "SELECT created_at::date, '12:30' FROM t"
     = {| sql := "SELECT created_at::date, '12:30' FROM t";
          parameterOrder := [] |}.
Proof.
  split; [reflexivity |].
  exact (parseNamedParameters_without_placeholders
           "SELECT created_at::date, '12:30' FROM t" eq_refl).
Defined.

(* ===================================================================== *)
(** * Further properties of the persistence store                         *)
(* ===================================================================== *)

(** X4. loadToolFromFile tells an absent tool from a corrupt one.  It
    returns null exactly when nothing exists at the tool's path, and then
    leaves the world as it is; it returns a configuration only if the file
    holds a JSON object that passes isValidToolConfig, and the
    configuration is that object; a file that holds anything else makes it
    throw an error that names the tool. *)
Theorem loadToolFromFile_outcomes (toolName : string) (w : World) :
  (files w !! tool_file toolName w = None ->
   tool_file toolName w ∉ dirs w ->
   loadToolFromFile toolName w = (inr None, w))
  /\ ((loadToolFromFile toolName w).1 = inr None ->
      files w !! tool_file toolName w = None /\ tool_file toolName w ∉ dirs w)
  /\ (forall config,
        (loadToolFromFile toolName w).1 = inr (Some config) ->
        exists v,
          files w !! tool_file toolName w = Some (JsonDoc v)
          /\ isValidToolConfig v = true
          /\ config = as_SavedToolConfig v)
  /\ (forall doc,
        files w !! tool_file toolName w = Some doc ->
        (forall v, doc = JsonDoc v -> isValidToolConfig v = false) ->
        exists cause,
          (loadToolFromFile toolName w).1
          = inl (Error ("Failed to load tool '" +:+ toolName
                        +:+ "' from file: " +:+ cause))).
Proof.
  unfold loadToolFromFile, Runtime.bind, try_catch, gets, existsSync,
    readFileSync, perform, Runtime.bind, gets, lift, throw, ret.
  cbn. set (file := tool_file toolName w).
  split_and!.
  - intros Hnone Hdir. rewrite Hnone.
    rewrite bool_decide_eq_false_2 by (by intros [? ?]).
    by rewrite bool_decide_eq_false_2.
  - destruct (files w !! file) as [doc|] eqn:Hfile.
    + rewrite bool_decide_eq_true_2 by done. cbn.
      destruct (faults (env w) (FsReadFile file)); cbn; [done |].
      rewrite Hfile. cbn. destruct doc as [v|text]; cbn; [|done].
      by destruct (isValidToolConfig v).
    + rewrite bool_decide_eq_false_2 by (by intros [? ?]). cbn.
      destruct (decide (file ∈ dirs w)) as [Hin|Hnin].
      * rewrite bool_decide_eq_true_2 by done. cbn.
        destruct (faults (env w) (FsReadFile file)); cbn; [done |].
        by rewrite Hfile.
      * done.
  - intros config.
    destruct (files w !! file) as [doc|] eqn:Hfile.
    + rewrite bool_decide_eq_true_2 by done. cbn.
      destruct (faults (env w) (FsReadFile file)); cbn; [done |].
      rewrite Hfile. cbn. destruct doc as [v|text]; cbn; [|done].
      destruct (isValidToolConfig v) eqn:Hvalid; cbn; [|done].
      intros [= <-]. by exists v.
    + rewrite bool_decide_eq_false_2 by (by intros [? ?]). cbn.
      destruct (bool_decide (file ∈ dirs w)); cbn; [|done].
      destruct (faults (env w) (FsReadFile file)); cbn; [done |].
      by rewrite Hfile.
  - intros doc Hfile Hbad. rewrite Hfile.
    rewrite bool_decide_eq_true_2 by done. cbn.
    destruct (faults (env w) (FsReadFile file)); cbn; [by eexists |].
    rewrite Hfile. cbn. destruct doc as [v|text]; cbn; [|by eexists].
    rewrite (Hbad v eq_refl). cbn. by eexists.
Qed.

Lemma loadToolFromFile_outcomes_witness :
  loadToolFromFile "nobody" (fresh_world example_env)
  = (inr None, fresh_world example_env)
  /\ exists v,
       files (world_with_get_user example_env)
         !! tool_file "get_user" (world_with_get_user example_env)
       = Some (JsonDoc v)
       /\ isValidToolConfig v = true
       /\ get_user_config = as_SavedToolConfig v.
Proof.
  split.
  - apply (proj1 (loadToolFromFile_outcomes "nobody" (fresh_world example_env)));
      [reflexivity |].
    apply (bool_decide_unpack _). by vm_compute.
  - apply (proj1 (proj2 (proj2 (loadToolFromFile_outcomes "get_user"
                                  (world_with_get_user example_env))))).
    by vm_compute.
Defined.

(** Loading a file that holds the document of a configuration gives the
    configuration back, its schema as the document has it. *)
Lemma loadToolFromFile_document toolName config fields w :
  parameter_schema config = Obj fields ->
  files w !! tool_file toolName w = Some (config_document config) ->
  faults (env w) (FsReadFile (tool_file toolName w)) = None ->
  (loadToolFromFile toolName w).1
  = inr (Some {| Types.name := Types.name config;
                 Types.description := Types.description config;
                 Types.sql_query := Types.sql_query config;
                 Types.sql_prepared := Types.sql_prepared config;
                 Types.parameter_schema := JSON_roundtrip (Obj fields);
                 Types.parameter_order := Types.parameter_order config |}).
Proof.
  intros Hschema Hfile Hfault.
  unfold config_document in Hfile. rewrite (roundtrip_config _ _ Hschema) in Hfile.
  unfold loadToolFromFile, Runtime.bind, try_catch, gets, existsSync,
    readFileSync, perform, Runtime.bind, gets, lift, throw, ret.
  cbn. unfold tool_file, TOOLS_DIR, DATA_DIR in *.
  set (file := join_path _ _) in *.
  rewrite Hfile. rewrite bool_decide_eq_true_2 by done. cbn.
  rewrite Hfault. cbn. rewrite Hfile.
  cbn -[JSON_roundtrip]. unfold isValidToolConfig.
  cbn -[JSON_roundtrip]. rewrite forallb_is_string. cbn -[JSON_roundtrip].
  unfold as_SavedToolConfig. cbn -[JSON_roundtrip].
  by rewrite map_string_of.
Qed.

(** X5. Round trip of the store: after saveToolToFile has returned, and if
    the parameter schema is a JSON object that a write and a read leave as
    it is, loadToolFromFile (the read not failing) returns the very
    configuration that was saved, with all six of its fields. *)
Theorem saveToolToFile_then_loadToolFromFile
    (toolName : string) (config : SavedToolConfig) (fields : props)
    (w w' : World) :
  saveToolToFile toolName config w = (inr tt, w') ->
  parameter_schema config = Obj fields ->
  JSON_roundtrip (Obj fields) = Obj fields ->
  faults (env w) (FsReadFile (tool_file toolName w)) = None ->
  (loadToolFromFile toolName w').1 = inr (Some config).
Proof.
  intros Hsave Hschema Hplain Hfault.
  apply saveToolToFile_stores in Hsave as [Henv Hstored].
  rewrite (loadToolFromFile_document toolName config fields w' Hschema Hstored).
  - rewrite Hplain. destruct config. simpl in *. by subst.
  - unfold tool_file, TOOLS_DIR, DATA_DIR in *. by rewrite Henv.
Qed.

Lemma saveToolToFile_then_loadToolFromFile_witness :
  (loadToolFromFile "get_user"
     (saveToolToFile "get_user" get_user_config (fresh_world example_env)).2).1
  = inr (Some get_user_config).
Proof.
  apply (saveToolToFile_then_loadToolFromFile "get_user" get_user_config
           [("type", Str "object");
            ("properties", Obj [("user_id", Obj [("type", Str "integer")])]);
            ("required", Arr [Str "user_id"])]
           (fresh_world example_env));
    reflexivity.
Defined.



(** Unfolding the world code of the store. *)
Ltac storage_unfold :=
  unfold deleteToolFile, saveToolToFile, ensureDataDirectory, loadToolFromFile,
    Runtime.bind, try_catch, gets, existsSync, mkdirSync, writeFileSync,
    readFileSync, unlinkSync, perform, modify, Runtime.bind, lift, throw, ret.


(** ** The directories *)

Lemma exists_iff (fs : gmap string document) (ds : gset string) p :
  bool_decide (is_Some (fs !! p)) || bool_decide (p ∈ ds) = true
  <-> is_Some (fs !! p) \/ p ∈ ds.
Proof. by rewrite orb_true_iff, !bool_decide_eq_true. Qed.

Lemma exists_at_iff p w :
  bool_decide (is_Some (files w !! p)) || bool_decide (p ∈ dirs w) = true
  <-> exists_at p w.
Proof. apply exists_iff. Qed.

Lemma ensureDataDirectory_present w :
  exists_at (DATA_DIR w) w -> exists_at (TOOLS_DIR w) w ->
  ensureDataDirectory w = (inr tt, w).
Proof.
  intros Hd Ht. apply exists_at_iff in Hd, Ht.
  storage_unfold. cbn. rewrite Hd. cbn. by rewrite Ht.
Qed.

Lemma ensureDataDirectory_makes w w' :
  ensureDataDirectory w = (inr tt, w') ->
  env w' = env w /\ files w' = files w /\ dirs w ⊆ dirs w'
  /\ registeredTools w' = registeredTools w /\ server_tools w' = server_tools w
  /\ exists_at (DATA_DIR w) w' /\ exists_at (TOOLS_DIR w) w'.
Proof.
  storage_unfold. unfold exists_at. cbn.
  destruct (bool_decide (is_Some (files w !! DATA_DIR w)) || _) eqn:Hd; cbn;
    [apply exists_iff in Hd | destruct (faults _ _); cbn; [done |]];
    (destruct (bool_decide (is_Some (files w !! TOOLS_DIR w)) || _) eqn:Ht; cbn;
     [apply exists_iff in Ht | destruct (faults _ _); cbn; [done |]]);
    intros [= <-]; cbn; split_and!; try done; try set_solver;
    try (right; set_solver);
    match goal with
    | H : is_Some _ \/ _ |- _ => destruct H as [?|?]; [by left | right; set_solver]
    end.
Qed.

(** X7. ensureDataDirectory, when it returns, has made the data directory
    and the tools directory exist, has changed no file and removed no
    directory, and running it again does nothing. *)
Theorem ensureDataDirectory_idempotent (w w' : World) :
  ensureDataDirectory w = (inr tt, w') ->
  exists_at (DATA_DIR w) w' /\ exists_at (TOOLS_DIR w) w'
  /\ files w' = files w /\ dirs w ⊆ dirs w'
  /\ ensureDataDirectory w' = (inr tt, w').
Proof.
  intros Hens. apply ensureDataDirectory_makes in Hens
    as (Henv & Hfiles & Hdirs & _ & _ & Hd & Ht).
  split_and!; try done.
  apply ensureDataDirectory_present; unfold TOOLS_DIR, DATA_DIR in *;
    by rewrite Henv.
Qed.

Lemma ensureDataDirectory_idempotent_witness :
  exists_at "./data" (ensureDataDirectory (fresh_world example_env)).2
  /\ exists_at "./data/tools" (ensureDataDirectory (fresh_world example_env)).2
  /\ ensureDataDirectory (ensureDataDirectory (fresh_world example_env)).2
     = (inr tt, (ensureDataDirectory (fresh_world example_env)).2).
Proof.
  destruct (ensureDataDirectory_idempotent (fresh_world example_env)
              (ensureDataDirectory (fresh_world example_env)).2 eq_refl)
    as (Hd & Ht & _ & _ & Hagain).
  split_and!; [exact Hd | exact Ht | exact Hagain].
Defined.

(** X8. deleteToolFile does nothing, and asks the file system nothing,
    when nothing exists at the tool's path.  When it returns, the files
    are those of before without the tool's file, and directories, registry
    and server are as they were.  With the file there and an unlink that
    works, it returns after that one call.  When the unlink fails, it
    throws an error that names the tool and the cause, and every file is
    still there. *)
Theorem deleteToolFile_outcomes (toolName : string) (w : World) :
  (~ exists_at (tool_file toolName w) w -> deleteToolFile toolName w = (inr tt, w))
  /\ (forall w',
        deleteToolFile toolName w = (inr tt, w') ->
        files w' = delete (tool_file toolName w) (files w)
        /\ dirs w' = dirs w
        /\ registeredTools w' = registeredTools w
        /\ server_tools w' = server_tools w)
  /\ (is_Some (files w !! tool_file toolName w) ->
      faults (env w) (FsUnlink (tool_file toolName w)) = None ->
      (deleteToolFile toolName w).1 = inr tt
      /\ calls (deleteToolFile toolName w).2
         = calls w ++ [FsUnlink (tool_file toolName w)])
  /\ (forall e,
        exists_at (tool_file toolName w) w ->
        faults (env w) (FsUnlink (tool_file toolName w)) = Some e ->
        (deleteToolFile toolName w).1
        = inl (Error ("Failed to delete tool file '" +:+ toolName +:+ "': "
                      +:+ error_message e))
        /\ files (deleteToolFile toolName w).2 = files w).
Proof.
  storage_unfold. cbn. set (file := tool_file toolName w).
  split_and!.
  - intros Hnot. rewrite <- exists_at_iff in Hnot.
    apply not_true_is_false in Hnot. by rewrite Hnot.
  - intros w'.
    destruct (bool_decide (is_Some (files w !! file)) || _) eqn:Hex; cbn.
    + destruct (faults _ _); cbn; [done |].
      destruct (files w !! file) as [doc|] eqn:Hfile; cbn; [|done].
      by intros [= <-].
    + intros [= <-]. split_and!; try done.
      apply orb_false_iff in Hex as [Hex _].
      apply bool_decide_eq_false in Hex.
      symmetry. apply delete_id. by apply eq_None_not_Some.
  - intros [doc Hfile] Hfault. rewrite Hfile.
    rewrite bool_decide_eq_true_2 by done. cbn. rewrite Hfault. cbn.
    by rewrite Hfile.
  - intros e Hex Hfault. apply exists_at_iff in Hex. rewrite Hex. cbn.
    by rewrite Hfault.
Qed.

Lemma deleteToolFile_outcomes_witness :
  deleteToolFile "nobody" (fresh_world example_env)
  = (inr tt, fresh_world example_env)
  /\ (deleteToolFile "get_user" (world_with_get_user example_env)).1 = inr tt
  /\ (deleteToolFile "get_user"
        (world_with_get_user (failing_env is_unlink "EPERM: operation not permitted"))).1
     = inl (Error "Failed to delete tool file 'get_user': EPERM: operation not permitted").
Proof.
  split_and!.
  - apply (proj1 (deleteToolFile_outcomes "nobody" (fresh_world example_env))).
    intros [[doc Hdoc]|Hdir]; [discriminate Hdoc |].
    revert Hdir. apply (bool_decide_unpack _). by vm_compute.
  - apply (proj1 (proj2 (proj2 (deleteToolFile_outcomes "get_user"
                                  (world_with_get_user example_env))))).
    + eexists. by vm_compute.
    + reflexivity.
  - apply (proj2 (proj2 (proj2 (deleteToolFile_outcomes "get_user"
             (world_with_get_user
                (failing_env is_unlink "EPERM: operation not permitted")))))
             (Error "EPERM: operation not permitted")).
    + left. eexists. by vm_compute.
    + reflexivity.
Defined.

(** ** One file for each tool *)









(** X10. The check of a loaded file is weaker than the check of a saved
    schema.  For the object of any definition, isValidToolConfig holds
    exactly when typeof its parameter_schema is "object"; so it holds
    whenever validateJsonSchema accepts the schema, and it also holds for
    a null schema, which validateJsonSchema rejects. *)
Theorem isValidToolConfig_is_weaker_than_validateJsonSchema
    (config : SavedToolConfig) :
  isValidToolConfig (config_value config)
  = String.eqb (typeof (parameter_schema config)) "object"
  /\ (validateJsonSchema (parameter_schema config) = true ->
      isValidToolConfig (config_value config) = true)
  /\ (parameter_schema config = Null ->
      isValidToolConfig (config_value config) = true
      /\ validateJsonSchema (parameter_schema config) = false).
Proof.
  assert (isValidToolConfig (config_value config)
          = String.eqb (typeof (parameter_schema config)) "object") as Heq.
  { unfold isValidToolConfig, config_value. cbn.
    by rewrite forallb_is_string, andb_true_r. }
  split_and!; [done | |].
  - rewrite Heq. unfold validateJsonSchema.
    destruct (is_nullish _); [done |].
    by destruct (String.eqb _ _).
  - intros Hnull. rewrite Heq, Hnull. done.
Qed.

Lemma isValidToolConfig_is_weaker_than_validateJsonSchema_witness :
  isValidToolConfig (config_value get_user_config) = true
  /\ isValidToolConfig
       (config_value
          {| Types.name := "broken"; Types.description := "No schema";
             Types.sql_query := "SELECT 1"; Types.sql_prepared := "SELECT 1";
             Types.parameter_schema := Null; Types.parameter_order := [] |})
     = true.
Proof.
  split.
  - apply (proj1 (proj2 (isValidToolConfig_is_weaker_than_validateJsonSchema
                           get_user_config))).
    reflexivity.
  - apply (proj2 (proj2 (isValidToolConfig_is_weaker_than_validateJsonSchema
             {| Types.name := "broken"; Types.description := "No schema";
                Types.sql_query := "SELECT 1"; Types.sql_prepared := "SELECT 1";
                Types.parameter_schema := Null; Types.parameter_order := [] |}))).
    reflexivity.
Defined.

(* ===================================================================== *)
(** * Further properties of delete_saved_query                            *)
(* ===================================================================== *)

Section DeleteSavedQueryProperties.

Import DeleteSavedQueryToolParams.

(** X11. A delete_saved_query call for a name that is neither protected
    nor in the registry is rejected as not found; nothing is removed or
    deleted and no outgoing call is made, whatever the store holds under
    that name. *)
Theorem delete_unknown_tool_rejected
    (params : DeleteSavedQueryToolParams.t) (w : World) :
  tool_name params ∉ DeleteSavedQuery.PROTECTED_TOOLS ->
  registeredTools w !! tool_name params = None ->
  (DeleteSavedQuery.handler params w).1
  = error_response ("deleting tool '" +:+ tool_name params +:+ "'")
      ("Saved query '" +:+ tool_name params +:+ "' not found")
  /\ untouched w (DeleteSavedQuery.handler params w).2.
Proof.
  intros Hfree Hnone. unfold DeleteSavedQuery.handler, withErrorHandling.
  rewrite bool_decide_eq_false_2 by done.
  cbn [run pbind act gets]. cbn. rewrite Hnone. cbn.
  unfold error_response. by rewrite append_nil_r.
Qed.

Lemma delete_unknown_tool_rejected_witness :
  (DeleteSavedQuery.handler {| tool_name := "get_order" |}
     (world_with_get_user example_env)).1
  = error_response "deleting tool 'get_order'" "Saved query 'get_order' not found"
  /\ untouched (world_with_get_user example_env)
       (DeleteSavedQuery.handler {| tool_name := "get_order" |}
          (world_with_get_user example_env)).2.
Proof.
  apply (delete_unknown_tool_rejected {| tool_name := "get_order" |}
           (world_with_get_user example_env)).
  - apply (bool_decide_unpack _). by vm_compute.
  - by vm_compute.
Defined.

(** X12. A delete_saved_query call for a registered, unprotected tool
    whose removal and unlink work succeeds and removes everything: the
    name leaves the registry, the handle leaves the server's table, the
    tool's file leaves the store, and loading the tool afterwards returns
    null. *)
Theorem delete_saved_query_removes_everything
    (params : DeleteSavedQueryToolParams.t) (handle : string) (w : World) :
  let w' := (DeleteSavedQuery.handler params w).2 in
  tool_name params ∉ DeleteSavedQuery.PROTECTED_TOOLS ->
  registeredTools w !! tool_name params = Some handle ->
  faults (env w) (ToolRemove handle) = None ->
  faults (env w) (FsUnlink (tool_file (tool_name params) w)) = None ->
  tool_file (tool_name params) w ∉ dirs w ->
  (DeleteSavedQuery.handler params w).1
  = createSuccessResponse
      ("Successfully deleted saved query '" +:+ tool_name params +:+ "'")
  /\ registeredTools w' = delete (tool_name params) (registeredTools w)
  /\ server_tools w' = delete handle (server_tools w)
  /\ files w' = delete (tool_file (tool_name params) w) (files w)
  /\ loadToolFromFile (tool_name params) w' = (inr None, w').
Proof.
  intros w' Hfree Hreg Hremove Hunlink Hdir. subst w'.
  unfold DeleteSavedQuery.handler, withErrorHandling.
  rewrite bool_decide_eq_false_2 by done.
  cbn [run pbind act gets]. cbn. rewrite Hreg. cbn.
  unfold tool_remove, Runtime.bind, perform, modify. cbn. rewrite Hremove. cbn.
  storage_unfold. cbn.
  unfold tool_file, TOOLS_DIR, DATA_DIR in *. cbn.
  set (file := join_path _ _) in *.
  rewrite (bool_decide_eq_false_2 (file ∈ dirs w)) by done.
  rewrite orb_false_r.
  destruct (files w !! file) as [doc|] eqn:Hfile.
  - rewrite bool_decide_eq_true_2 by done. cbn. rewrite Hunlink. cbn.
    rewrite Hfile. cbn. fold file. rewrite lookup_delete_eq.
    rewrite bool_decide_eq_false_2 by (by intros [? ?]).
    rewrite bool_decide_eq_false_2 by done. done.
  - rewrite bool_decide_eq_false_2 by (by intros [? ?]). cbn. fold file.
    rewrite Hfile.
    rewrite bool_decide_eq_false_2 by (by intros [? ?]).
    rewrite bool_decide_eq_false_2 by done. cbn.
    split_and!; try done. symmetry. by apply delete_id.
Qed.

Lemma delete_saved_query_removes_everything_witness :
  (DeleteSavedQuery.handler {| tool_name := "get_user" |}
     (world_with_get_user example_env)).1
  = createSuccessResponse "Successfully deleted saved query 'get_user'"
  /\ loadToolFromFile "get_user"
       (DeleteSavedQuery.handler {| tool_name := "get_user" |}
          (world_with_get_user example_env)).2
     = (inr None,
        (DeleteSavedQuery.handler {| tool_name := "get_user" |}
           (world_with_get_user example_env)).2).
Proof.
  destruct (delete_saved_query_removes_everything {| tool_name := "get_user" |}
              "get_user" (world_with_get_user example_env))
    as (Hresponse & _ & _ & _ & Hload);
    [apply (bool_decide_unpack _); by vm_compute
    | by vm_compute | reflexivity | reflexivity
    | apply (bool_decide_unpack _); by vm_compute |].
  split; [exact Hresponse | exact Hload].
Defined.

(** X13. delete_saved_query removes from the server first and from the
    store last, and rolls nothing back.  When the handle's remove fails,
    the registry, the server's table and the files are as they were, and
    the error names the stage "removing tool from MCP server".  When the
    remove works and the unlink fails, the tool is gone from the registry
    and from the server, its file is still in the store, and the error
    names the stage "deleting tool file from storage". *)
Theorem delete_saved_query_partial_failure
    (params : DeleteSavedQueryToolParams.t) (handle : string) (e : exn)
    (w : World) :
  let operation := "deleting tool '" +:+ tool_name params +:+ "'" in
  let w' := (DeleteSavedQuery.handler params w).2 in
  tool_name params ∉ DeleteSavedQuery.PROTECTED_TOOLS ->
  registeredTools w !! tool_name params = Some handle ->
  (faults (env w) (ToolRemove handle) = Some e ->
   (DeleteSavedQuery.handler params w).1
   = error_response (operation +:+ " while removing tool from MCP server")
       (error_message e)
   /\ registeredTools w' = registeredTools w
   /\ server_tools w' = server_tools w
   /\ files w' = files w)
  /\ (faults (env w) (ToolRemove handle) = None ->
      is_Some (files w !! tool_file (tool_name params) w) ->
      faults (env w) (FsUnlink (tool_file (tool_name params) w)) = Some e ->
      (DeleteSavedQuery.handler params w).1
      = error_response (operation +:+ " while deleting tool file from storage")
          ("Failed to delete tool file '" +:+ tool_name params +:+ "': "
           +:+ error_message e)
      /\ registeredTools w' = delete (tool_name params) (registeredTools w)
      /\ server_tools w' = delete handle (server_tools w)
      /\ files w' = files w).
Proof.
  intros operation w' Hfree Hreg. subst operation w'.
  unfold DeleteSavedQuery.handler, withErrorHandling.
  rewrite bool_decide_eq_false_2 by done.
  cbn [run pbind act gets]. cbn. rewrite Hreg. cbn.
  unfold tool_remove, Runtime.bind, perform, modify. cbn.
  split.
  - intros ->. cbn. unfold error_response. by rewrite !append_assoc.
  - intros -> Hfile Hunlink. cbn. storage_unfold. cbn.
    unfold tool_file, TOOLS_DIR, DATA_DIR in *. cbn.
    rewrite bool_decide_eq_true_2 by done. cbn. rewrite Hunlink. cbn.
    unfold error_response. by rewrite !append_assoc.
Qed.

Lemma delete_saved_query_partial_failure_witness :
  files (DeleteSavedQuery.handler {| tool_name := "get_user" |}
           (world_with_get_user (failing_env is_remove "Not connected"))).2
  = files (world_with_get_user (failing_env is_remove "Not connected"))
  /\ registeredTools
       (DeleteSavedQuery.handler {| tool_name := "get_user" |}
          (world_with_get_user (failing_env is_unlink "EPERM"))).2
     = delete "get_user"
         (registeredTools (world_with_get_user (failing_env is_unlink "EPERM")))
  /\ files (DeleteSavedQuery.handler {| tool_name := "get_user" |}
              (world_with_get_user (failing_env is_unlink "EPERM"))).2
     = files (world_with_get_user (failing_env is_unlink "EPERM")).
Proof.
  destruct (delete_saved_query_partial_failure {| tool_name := "get_user" |}
              "get_user" (Error "Not connected")
              (world_with_get_user (failing_env is_remove "Not connected")))
    as [Hremove _];
    [apply (bool_decide_unpack _); by vm_compute | by vm_compute |].
  destruct (delete_saved_query_partial_failure {| tool_name := "get_user" |}
              "get_user" (Error "EPERM")
              (world_with_get_user (failing_env is_unlink "EPERM")))
    as [_ Hunlink];
    [apply (bool_decide_unpack _); by vm_compute | by vm_compute |].
  destruct (Hremove eq_refl) as (_ & _ & _ & Hfiles).
  destruct Hunlink as (_ & Hregistry & _ & Hkept);
    [reflexivity | eexists; by vm_compute | reflexivity |].
  split_and!; [exact Hfiles | exact Hregistry | exact Hkept].
Defined.


End DeleteSavedQueryProperties.

(* ===================================================================== *)
(** * Further properties of save_query                                    *)
(* ===================================================================== *)

(** ** The store and the registration do not look at the console *)

Lemma ignores_console_bind {A B : Type} (m : M A) (k : A -> M B) :
  ignores_console m -> (forall a, ignores_console (k a)) ->
  ignores_console (Runtime.bind m k).
Proof.
  intros Hm Hk f w. unfold Runtime.bind. rewrite Hm.
  destruct (m w) as [[e|a] w1]; cbn; [done |]. by rewrite Hk.
Qed.

Lemma ignores_console_try_catch {A : Type} (m : M A) (h : exn -> M A) :
  ignores_console m -> (forall e, ignores_console (h e)) ->
  ignores_console (try_catch m h).
Proof.
  intros Hm Hh f w. unfold try_catch. rewrite Hm.
  destruct (m w) as [[e|a] w1]; cbn; [|done]. by rewrite Hh.
Qed.

Lemma ignores_console_perform c : ignores_console (perform c).
Proof. intros f w. unfold perform. cbn. by destruct (faults (env w) c). Qed.

(** Going through world code built with bind and try_catch. *)
Ltac console_blind :=
  repeat first
    [ apply ignores_console_bind; [| intros ?]
    | apply ignores_console_try_catch; [| intros ?]
    | apply ignores_console_perform
    | done
    | match goal with
      | |- ignores_console (if ?b then _ else _) => destruct b
      | |- ignores_console (match ?x with _ => _ end) => destruct x
      end ].

Lemma ignores_console_saveToolToFile toolName config :
  ignores_console (saveToolToFile toolName config).
Proof.
  unfold saveToolToFile, ensureDataDirectory, existsSync, mkdirSync,
    writeFileSync.
  console_blind.
Qed.

Lemma ignores_console_loadToolFromFile toolName :
  ignores_console (loadToolFromFile toolName).
Proof. unfold loadToolFromFile, existsSync, readFileSync. console_blind. Qed.

Lemma ignores_console_createDynamicToolHandler toolConfig :
  ignores_console (createDynamicToolHandler toolConfig).
Proof.
  intros f w. unfold createDynamicToolHandler. cbn.
  by destruct (convertJsonSchemaToZod _ _ _).
Qed.

Lemma ignores_console_registerToolWithServer toolName toolConfig :
  ignores_console (SaveQuery.registerToolWithServer toolName toolConfig).
Proof.
  unfold SaveQuery.registerToolWithServer, server_registerTool.
  apply ignores_console_bind; [apply ignores_console_createDynamicToolHandler |].
  intros cb. console_blind.
Qed.

Lemma ignores_console_updateExistingTool toolName toolConfig :
  ignores_console (SaveQuery.updateExistingTool toolName toolConfig).
Proof.
  unfold SaveQuery.updateExistingTool, tool_update.
  apply ignores_console_bind; [done |]. intros [handle|]; [|done].
  apply ignores_console_bind; [apply ignores_console_createDynamicToolHandler |].
  intros cb. console_blind.
Qed.


Section SaveQueryProperties.

Import SaveQueryToolParams.

(** ** The handler, stage by stage *)

(** A save of a new name with a schema that passes: the response and the
    world are those of saveToolToFile followed by registerToolWithServer,
    the console apart. *)

Lemma save_handler_create (params : SaveQueryToolParams.t) (w : World) :
  let operation := "saving tool '" +:+ tool_name params +:+ "'" in
  let saved := saveToolToFile (tool_name params) (saved_config params) w in
  let registered :=
    SaveQuery.registerToolWithServer (tool_name params) (saved_config params)
      saved.2 in
  registeredTools w !! tool_name params = None ->
  validateJsonSchema (parameter_schema params) = true ->
  (SaveQuery.handler params w).1
  = match saved.1, registered.1 with
    | inl e, _ =>
        error_response (operation +:+ " while persisting tool to file")
          (error_message e)
    | inr _, inl e =>
        error_response (operation +:+ " while registering new tool in MCP server")
          (error_message e)
    | inr _, inr _ =>
        createSuccessResponse
          ("Successfully created tool '" +:+ tool_name params +:+ "' with "
           +:+ SaveQuery.parameter_summary
                 (extractNamedParameters (sql_query params)))
    end
  /\ untouched (match saved.1 with inl _ => saved.2 | inr _ => registered.2 end)
       (SaveQuery.handler params w).2.
Proof.
  intros operation saved registered Hnew Hvalid. subst operation saved registered.
  unfold saved_config.
  destruct params as [toolName desc query schema over]. cbn in Hnew, Hvalid.
  unfold SaveQuery.handler, withErrorHandling, async.
  cbn [run pbind act gets tool_name description sql_query parameter_schema
       overwrite].
  change (registeredTools (console_error _ w)) with (registeredTools w).
  rewrite Hnew. rewrite bool_decide_eq_false_2 by (by intros [? ?]).
  cbn [andb negb]. cbn [run pbind act log]. rewrite Hvalid. cbn [negb].
  destruct (parseNamedParameters query) as [prepared order].
  cbn [run pbind act log sql parameterOrder].
  unfold console_error.
  rewrite !ignores_console_saveToolToFile.
  destruct (saveToolToFile toolName _ w) as [[e|[]] w2]; cbn [fst snd].
  - unfold createErrorResponse, error_response. cbn.
    by rewrite !append_assoc.
  - rewrite !ignores_console_registerToolWithServer.
    destruct (SaveQuery.registerToolWithServer toolName _ w2) as [[e|h] w3];
      cbn [fst snd].
    + unfold createErrorResponse, error_response. cbn.
      by rewrite !append_assoc.
    + done.
Qed.

(** The same for an overwrite, with updateExistingTool. *)
Lemma save_handler_update (params : SaveQueryToolParams.t) (w : World) :
  let operation := "saving tool '" +:+ tool_name params +:+ "'" in
  let saved := saveToolToFile (tool_name params) (saved_config params) w in
  let updated :=
    SaveQuery.updateExistingTool (tool_name params) (saved_config params)
      saved.2 in
  is_Some (registeredTools w !! tool_name params) ->
  overwrite params = Some true ->
  validateJsonSchema (parameter_schema params) = true ->
  (SaveQuery.handler params w).1
  = match saved.1, updated.1 with
    | inl e, _ =>
        error_response (operation +:+ " while persisting tool to file")
          (error_message e)
    | inr _, inl e =>
        error_response (operation +:+ " while updating existing tool in MCP server")
          (error_message e)
    | inr _, inr _ =>
        createSuccessResponse
          ("Successfully updated tool '" +:+ tool_name params +:+ "' with "
           +:+ SaveQuery.parameter_summary
                 (extractNamedParameters (sql_query params)))
    end
  /\ untouched (match saved.1 with inl _ => saved.2 | inr _ => updated.2 end)
       (SaveQuery.handler params w).2.
Proof.
  intros operation saved updated Hold Hover Hvalid. subst operation saved updated.
  unfold saved_config.
  destruct params as [toolName desc query schema over].
  cbn in Hold, Hover, Hvalid. subst over.
  unfold SaveQuery.handler, withErrorHandling, async.
  cbn [run pbind act gets tool_name description sql_query parameter_schema
       overwrite].
  change (registeredTools (console_error _ w)) with (registeredTools w).
  rewrite bool_decide_eq_true_2 by done.
  cbn [andb negb default from_option id]. cbn [run pbind act log].
  rewrite Hvalid. cbn [negb andb id].
  destruct (parseNamedParameters query) as [prepared order].
  cbn [run pbind act log sql parameterOrder].
  unfold console_error.
  rewrite !ignores_console_saveToolToFile.
  destruct (saveToolToFile toolName _ w) as [[e|[]] w2]; cbn [fst snd].
  - unfold createErrorResponse, error_response. cbn.
    by rewrite !append_assoc.
  - rewrite !ignores_console_updateExistingTool.
    destruct (SaveQuery.updateExistingTool toolName _ w2) as [[e|[]] w3];
      cbn [fst snd].
    + unfold createErrorResponse, error_response. cbn.
      by rewrite !append_assoc.
    + done.
Qed.

(** X14. A save_query call that is no conflict and whose parameter_schema
    fails validateJsonSchema is rejected at the stage "validating
    parameter schema"; no file is written, no directory made, registry and
    server stay as they were, and no outgoing call is made. *)
Theorem save_query_invalid_schema_touches_nothing
    (params : SaveQueryToolParams.t) (w : World) :
  registeredTools w !! tool_name params = None \/ overwrite params = Some true ->
  validateJsonSchema (parameter_schema params) = false ->
  (SaveQuery.handler params w).1
  = error_response
      ("saving tool '" +:+ tool_name params
       +:+ "' while validating parameter schema")
      "Invalid parameter_schema: must be a valid JSON Schema object"
  /\ untouched w (SaveQuery.handler params w).2.
Proof.
  intros Hfree Hvalid. unfold SaveQuery.handler, withErrorHandling, async.
  cbn [run pbind act gets].
  change (registeredTools (console_error _ w)) with (registeredTools w).
  assert (bool_decide (is_Some (registeredTools w !! tool_name params))
          && negb (default false (overwrite params)) = false) as ->.
  { destruct Hfree as [-> | ->]; [|by rewrite andb_false_r].
    by rewrite bool_decide_eq_false_2 by (by intros [? ?]). }
  cbn [run pbind act log]. rewrite Hvalid. cbn [negb run].
  unfold createErrorResponse, error_response. cbn.
  by rewrite !append_assoc.
Qed.

Lemma save_query_invalid_schema_touches_nothing_witness :
  (SaveQuery.handler
     {| tool_name := "get_user"; description := "Look a user up by id";
        sql_query := get_user_query; parameter_schema := Str "object";
        overwrite := Some true |}
     (world_with_get_user example_env)).1
  = error_response "saving tool 'get_user' while validating parameter schema"
      "Invalid parameter_schema: must be a valid JSON Schema object"
  /\ untouched (world_with_get_user example_env)
       (SaveQuery.handler
          {| tool_name := "get_user"; description := "Look a user up by id";
             sql_query := get_user_query; parameter_schema := Str "object";
             overwrite := Some true |}
          (world_with_get_user example_env)).2.
Proof.
  apply (save_query_invalid_schema_touches_nothing
           {| tool_name := "get_user"; description := "Look a user up by id";
              sql_query := get_user_query; parameter_schema := Str "object";
              overwrite := Some true |}
           (world_with_get_user example_env)).
  - right. reflexivity.
  - reflexivity.
Defined.

(** ** What each stage leaves behind *)

Lemma saveToolToFile_outcome toolName config w :
  let r := saveToolToFile toolName config w in
  env r.2 = env w
  /\ registeredTools r.2 = registeredTools w
  /\ server_tools r.2 = server_tools w
  /\ match r.1 with
     | inl _ => files r.2 = files w
     | inr _ =>
         files r.2 = <[tool_file toolName w := config_document config]> (files w)
     end
  /\ Forall (fun c => is_mkdir c || is_write c = true)
       (drop (length (calls w)) (calls r.2)).
Proof.
  storage_unfold. cbn.
  repeat match goal with
         | |- context [match faults ?e ?c with _ => _ end] =>
             destruct (faults e c); cbn
         | |- context [if negb ?b then _ else _] => destruct b; cbn
         end;
    split_and!; try done;
    rewrite <- ?app_assoc, ?drop_app_length, ?drop_all; by repeat constructor.
Qed.

Lemma registerToolWithServer_outcome toolName config w :
  let r := SaveQuery.registerToolWithServer toolName config w in
  env r.2 = env w /\ files r.2 = files w /\ dirs r.2 = dirs w
  /\ match r.1 with
     | inl _ =>
         registeredTools r.2 = registeredTools w
         /\ server_tools r.2 = server_tools w
     | inr handle =>
         handle = toolName
         /\ server_tools w !! toolName = None
         /\ registeredTools r.2 = <[toolName := toolName]> (registeredTools w)
         /\ exists paramSchema shape,
              server_tools r.2
              = <[toolName := {| title := Types.description config;
                                 tool_description := Types.description config;
                                 inputSchema := shape;
                                 callback := DynamicTool config paramSchema |}]>
                  (server_tools w)
     end.
Proof.
  unfold SaveQuery.registerToolWithServer, createDynamicToolHandler,
    server_registerTool, Runtime.bind, perform, gets, modify, lift, throw, ret.
  cbn.
  destruct (convertJsonSchemaToZod _ _ _) as [e|paramSchema]; cbn; [done |].
  destruct (convertJsonSchemaToMcpZod _) as [e|shape]; cbn; [done |].
  destruct (faults _ _); cbn; [done |].
  destruct (server_tools w !! toolName) as [tool|] eqn:Htaken.
  - by rewrite bool_decide_eq_true_2 by done.
  - rewrite bool_decide_eq_false_2 by (by intros [? ?]). cbn.
    split_and!; try done. by eexists _, _.
Qed.

Lemma updateExistingTool_outcome toolName config w :
  let r := SaveQuery.updateExistingTool toolName config w in
  env r.2 = env w /\ files r.2 = files w /\ dirs r.2 = dirs w
  /\ registeredTools r.2 = registeredTools w
  /\ match r.1 with
     | inl _ => server_tools r.2 = server_tools w
     | inr _ =>
         exists handle paramSchema shape,
           registeredTools w !! toolName = Some handle
           /\ server_tools r.2
              = alter (fun _ => {| title := Types.description config;
                                   tool_description := Types.description config;
                                   inputSchema := shape;
                                   callback := DynamicTool config paramSchema |})
                  handle (server_tools w)
     end.
Proof.
  unfold SaveQuery.updateExistingTool, createDynamicToolHandler,
    tool_update, Runtime.bind, perform, gets, modify, lift, throw, ret.
  cbn.
  destruct (registeredTools w !! toolName) as [handle|]; cbn; [|done].
  destruct (convertJsonSchemaToZod _ _ _) as [e|paramSchema]; cbn; [done |].
  destruct (convertJsonSchemaToMcpZod _) as [e|shape]; cbn; [done |].
  destruct (faults _ _); cbn; [done |].
  split_and!; try done. by eexists _, _, _.
Qed.



(** X16. A save_query call for a new name that succeeds has written the
    definition's document to the tool's file, entered the name in the
    registry with a handle of that name, and added to the server, which
    had no tool of that name, a tool with the request's description whose
    handler is built from the definition; the response counts and lists
    the parameter order. *)
Theorem save_query_creates_tool (params : SaveQueryToolParams.t) (w : World) :
  let w' := (SaveQuery.handler params w).2 in
  registeredTools w !! tool_name params = None ->
  isError (SaveQuery.handler params w).1 = None ->
  (SaveQuery.handler params w).1
  = createSuccessResponse
      ("Successfully created tool '" +:+ tool_name params +:+ "' with "
       +:+ SaveQuery.parameter_summary
             (parameterOrder (parseNamedParameters (sql_query params))))
  /\ files w'
     = <[tool_file (tool_name params) w := config_document (saved_config params)]>
         (files w)
  /\ registeredTools w' = <[tool_name params := tool_name params]> (registeredTools w)
  /\ server_tools w !! tool_name params = None
  /\ exists paramSchema shape,
       server_tools w'
       = <[tool_name params :=
             {| title := description params;
                tool_description := description params;
                inputSchema := shape;
                callback := DynamicTool (saved_config params) paramSchema |}]>
           (server_tools w).
Proof.
  intros w' Hnew Hok. subst w'.
  destruct (validateJsonSchema (parameter_schema params)) eqn:Hvalid.
  2:{ exfalso. revert Hok. unfold SaveQuery.handler, withErrorHandling, async.
      cbn [run pbind act gets].
      change (registeredTools (console_error _ w)) with (registeredTools w).
      rewrite Hnew, bool_decide_eq_false_2 by (by intros [? ?]).
      cbn [andb run pbind act log]. rewrite Hvalid. cbn [negb run]. done. }
  destruct (save_handler_create params w Hnew Hvalid) as [Hresponse Hsame].
  pose proof (saveToolToFile_outcome (tool_name params) (saved_config params) w)
    as (Henv & Hreg2 & Hserver & Hfiles & _).
  destruct (saveToolToFile _ _ w) as [[e|[]] w2]; cbn [fst snd] in *.
  { by rewrite Hresponse in Hok. }
  pose proof (registerToolWithServer_outcome (tool_name params)
                (saved_config params) w2) as (_ & Hkeep & _ & Hreg).
  destruct (SaveQuery.registerToolWithServer _ _ w2) as [[e|handle] w3];
    cbn [fst snd] in *.
  { by rewrite Hresponse in Hok. }
  destruct Hreg as (_ & Hfree & Hregistry & paramSchema & shape & Htool).
  destruct Hsame as (Hf & _ & Hr & Hs & _).
  rewrite Hserver in Hfree, Htool.
  rewrite Hresponse, Hf, Hr, Hs, Hkeep, Hfiles, Hregistry, Htool, Hreg2.
  rewrite (proj1 (parse_spec (sql_query params))).
  split_and!; try done. by eexists _, _.
Qed.

Lemma save_query_creates_tool_witness :
  (SaveQuery.handler save_get_user (fresh_world example_env)).1
  = createSuccessResponse
      "Successfully created tool 'get_user' with 1 parameter: user_id"
  /\ registeredTools (world_with_get_user example_env) = {[ "get_user" := "get_user" ]}.
Proof.
  destruct (save_query_creates_tool save_get_user (fresh_world example_env))
    as (Hresponse & _ & Hregistry & _); [reflexivity | reflexivity |].
  split; [exact Hresponse | exact Hregistry].
Defined.

Lemma save_handler_invalid (params : SaveQueryToolParams.t) (w : World) :
  validateJsonSchema (parameter_schema params) = false ->
  isError (SaveQuery.handler params w).1 = Some true.
Proof.
  intros Hvalid. unfold SaveQuery.handler, withErrorHandling, async.
  cbn [run pbind act gets].
  destruct (_ && negb _); cbn [run pbind act log]; [done |].
  by rewrite Hvalid.
Qed.

(** X17. A save is not rolled back: when the file was written and the
    registration with the server then fails, the response is that error
    at the stage "registering new tool in MCP server", the registry and
    the server's table are as they were, and the definition's document
    stays in the store. *)
Theorem save_query_registration_failure_keeps_file
    (params : SaveQueryToolParams.t) (e : exn) (w : World) :
  let w' := (SaveQuery.handler params w).2 in
  let saved := saveToolToFile (tool_name params) (saved_config params) w in
  registeredTools w !! tool_name params = None ->
  validateJsonSchema (parameter_schema params) = true ->
  saved.1 = inr tt ->
  (SaveQuery.registerToolWithServer (tool_name params) (saved_config params)
     saved.2).1 = inl e ->
  (SaveQuery.handler params w).1
  = error_response
      ("saving tool '" +:+ tool_name params
       +:+ "' while registering new tool in MCP server")
      (error_message e)
  /\ files w'
     = <[tool_file (tool_name params) w := config_document (saved_config params)]>
         (files w)
  /\ registeredTools w' = registeredTools w
  /\ server_tools w' = server_tools w.
Proof.
  intros w' saved Hnew Hvalid Hsaved Hfail. subst w' saved.
  destruct (save_handler_create params w Hnew Hvalid) as [Hresponse Hsame].
  pose proof (saveToolToFile_outcome (tool_name params) (saved_config params) w)
    as (_ & Hreg2 & Hserver & Hfiles & _).
  pose proof (registerToolWithServer_outcome (tool_name params)
                (saved_config params)
                (saveToolToFile (tool_name params) (saved_config params) w).2)
    as (_ & Hkeep & _ & Hreg).
  cbn zeta in Hreg, Hkeep.
  rewrite Hsaved in Hresponse, Hsame, Hfiles.
  rewrite Hfail in Hresponse, Hreg.
  destruct Hreg as [Hr3 Hs3]. destruct Hsame as (Hf & _ & Hr & Hs & _).
  rewrite Hresponse, Hf, Hr, Hs, Hkeep, Hfiles, Hr3, Hs3, Hreg2, Hserver.
  by rewrite !append_assoc.
Qed.

Lemma save_query_registration_failure_keeps_file_witness :
  (SaveQuery.handler save_get_user
     (fresh_world (failing_env is_register "Not connected"))).1
  = error_response
      "saving tool 'get_user' while registering new tool in MCP server"
      "Not connected"
  /\ registeredTools
       (SaveQuery.handler save_get_user
          (fresh_world (failing_env is_register "Not connected"))).2
     = ∅.
Proof.
  destruct (save_query_registration_failure_keeps_file save_get_user
              (Error "Not connected")
              (fresh_world (failing_env is_register "Not connected")))
    as (Hresponse & _ & Hregistry & _);
    [reflexivity | reflexivity | reflexivity | reflexivity |].
  split; [exact Hresponse | exact Hregistry].
Defined.

(** X18. A save_query call with overwrite for a registered name that
    succeeds replaces the document in the tool's file, leaves the registry
    as it was, so that the handle is kept, and updates the server's entry
    of that handle in place. *)
Theorem save_query_overwrite_updates_in_place
    (params : SaveQueryToolParams.t) (w : World) :
  let w' := (SaveQuery.handler params w).2 in
  is_Some (registeredTools w !! tool_name params) ->
  overwrite params = Some true ->
  isError (SaveQuery.handler params w).1 = None ->
  (SaveQuery.handler params w).1
  = createSuccessResponse
      ("Successfully updated tool '" +:+ tool_name params +:+ "' with "
       +:+ SaveQuery.parameter_summary
             (parameterOrder (parseNamedParameters (sql_query params))))
  /\ files w'
     = <[tool_file (tool_name params) w := config_document (saved_config params)]>
         (files w)
  /\ registeredTools w' = registeredTools w
  /\ exists handle paramSchema shape,
       registeredTools w !! tool_name params = Some handle
       /\ server_tools w'
          = alter (fun _ => {| title := description params;
                               tool_description := description params;
                               inputSchema := shape;
                               callback :=
                                 DynamicTool (saved_config params) paramSchema |})
              handle (server_tools w).
Proof.
  intros w' Hold Hover Hok. subst w'.
  destruct (validateJsonSchema (parameter_schema params)) eqn:Hvalid.
  2:{ by rewrite save_handler_invalid in Hok. }
  destruct (save_handler_update params w Hold Hover Hvalid) as [Hresponse Hsame].
  pose proof (saveToolToFile_outcome (tool_name params) (saved_config params) w)
    as (Henv & Hreg2 & Hserver & Hfiles & _).
  destruct (saveToolToFile _ _ w) as [[e|[]] w2]; cbn [fst snd] in *.
  { by rewrite Hresponse in Hok. }
  pose proof (updateExistingTool_outcome (tool_name params)
                (saved_config params) w2) as (_ & Hkeep & _ & Hr3 & Hupd).
  destruct (SaveQuery.updateExistingTool _ _ w2) as [[e|[]] w3];
    cbn [fst snd] in *.
  { by rewrite Hresponse in Hok. }
  destruct Hupd as (handle & paramSchema & shape & Hhandle & Htool).
  destruct Hsame as (Hf & _ & Hr & Hs & _).
  rewrite Hserver in Htool. rewrite Hreg2 in Hhandle.
  rewrite Hresponse, Hf, Hr, Hs, Hkeep, Hfiles, Hr3, Htool, Hreg2.
  rewrite (proj1 (parse_spec (sql_query params))).
  split_and!; try done. by eexists _, _, _.
Qed.


Lemma save_query_overwrite_updates_in_place_witness :
  (SaveQuery.handler overwrite_get_user (world_with_get_user example_env)).1
  = createSuccessResponse
      "Successfully updated tool 'get_user' with 2 parameters: user_id, tenant"
  /\ registeredTools
       (SaveQuery.handler overwrite_get_user (world_with_get_user example_env)).2
     = registeredTools (world_with_get_user example_env).
Proof.
  destruct (save_query_overwrite_updates_in_place overwrite_get_user
              (world_with_get_user example_env))
    as (Hresponse & _ & Hregistry & _);
    [eexists; by vm_compute | reflexivity | reflexivity |].
  split; [exact Hresponse | exact Hregistry].
Defined.

End SaveQueryProperties.

(* ===================================================================== *)
(** * Properties of show_saved_query                                      *)
(* ===================================================================== *)

Section ShowSavedQueryProperties.

Import ShowSavedQuery.ShowSavedQueryToolParams.

Lemma loadToolFromFile_reads_only toolName w :
  let r := loadToolFromFile toolName w in
  files r.2 = files w /\ dirs r.2 = dirs w
  /\ registeredTools r.2 = registeredTools w
  /\ server_tools r.2 = server_tools w
  /\ (calls r.2 = calls w
      \/ calls r.2 = calls w ++ [FsReadFile (tool_file toolName w)]).
Proof.
  storage_unfold. cbn.
  destruct (_ || _); cbn; [|by split_and!; try left].
  destruct (faults _ _); cbn; [by split_and!; try right |].
  destruct (files w !! _) as [[v|text]|]; cbn;
    try destruct (isValidToolConfig v); cbn; by split_and!; try right.
Qed.

(** X19. show_saved_query answers for registered names only, and from
    the store.  For a name that is not in the registry it reports not
    found and reads no file.  For a registered name the response is the
    error of loadToolFromFile if that throws, "could not be loaded" if
    nothing exists at the tool's path, and otherwise the loaded definition
    printed as the JSON object a save writes; files, directories, registry
    and server are never changed. *)
Theorem show_saved_query_outcomes
    (params : ShowSavedQuery.ShowSavedQueryToolParams.t) (w : World) :
  let operation := "showing saved query '" +:+ tool_name params +:+ "'" in
  let w' := (ShowSavedQuery.handler params w).2 in
  (registeredTools w !! tool_name params = None ->
   (ShowSavedQuery.handler params w).1
   = error_response operation
       ("Saved query '" +:+ tool_name params +:+ "' not found")
   /\ untouched w w')
  /\ (is_Some (registeredTools w !! tool_name params) ->
      (ShowSavedQuery.handler params w).1
      = match (loadToolFromFile (tool_name params) w).1 with
        | inl e => error_response operation (error_message e)
        | inr None =>
            error_response operation
              ("Tool configuration for '" +:+ tool_name params
               +:+ "' could not be loaded")
        | inr (Some toolConfig) =>
            createSuccessResponse (shown_definition (tool_name params) toolConfig)
        end
      /\ files w' = files w /\ dirs w' = dirs w
      /\ registeredTools w' = registeredTools w
      /\ server_tools w' = server_tools w).
Proof.
  intros operation w'. subst operation w'.
  unfold ShowSavedQuery.handler, withErrorHandling.
  cbn [run pbind act gets].
  change (registeredTools (console_error _ w)) with (registeredTools w).
  split.
  - intros ->. rewrite bool_decide_eq_false_2 by (by intros [? ?]).
    cbn [negb run]. unfold createErrorResponse, error_response. cbn.
    by rewrite append_nil_r.
  - intros Hreg. rewrite bool_decide_eq_true_2 by done. cbn [negb run pbind].
    unfold console_error. rewrite ignores_console_loadToolFromFile.
    pose proof (loadToolFromFile_reads_only (tool_name params) w)
      as (Hf & Hd & Hr & Hs & _).
    destruct (loadToolFromFile (tool_name params) w) as [[e|[config|]] w2];
      cbn [fst snd run] in *.
    + unfold createErrorResponse, error_response. cbn.
      by rewrite append_nil_r.
    + done.
    + unfold createErrorResponse, error_response. cbn.
      by rewrite append_nil_r.
Qed.

Lemma show_saved_query_outcomes_witness :
  (ShowSavedQuery.handler {| tool_name := "get_order" |}
     (world_with_get_user example_env)).1
  = error_response "showing saved query 'get_order'"
      "Saved query 'get_order' not found"
  /\ (ShowSavedQuery.handler {| tool_name := "get_user" |}
        (world_with_get_user example_env)).1
     = createSuccessResponse (shown_definition "get_user" get_user_config).
Proof.
  split.
  - apply (proj1 (show_saved_query_outcomes {| tool_name := "get_order" |}
                    (world_with_get_user example_env))).
    reflexivity.
  - apply (proj2 (show_saved_query_outcomes {| tool_name := "get_user" |}
                    (world_with_get_user example_env))).
    eexists. by vm_compute.
Defined.

End ShowSavedQueryProperties.

(* ===================================================================== *)
(** * Further properties of query execution                               *)
(* ===================================================================== *)

Lemma getTypeNames_calls (result : Pg.QueryResult) (w : World) :
  let r := getTypeNames (map Pg.dataTypeID (Pg.fields result)) w in
  calls r.2 = calls w ++ type_names_call result
  /\ files r.2 = files w /\ dirs r.2 = dirs w
  /\ registeredTools r.2 = registeredTools w
  /\ server_tools r.2 = server_tools w
  /\ console r.2 = console w.
Proof.
  unfold getTypeNames, type_names_call.
  destruct (Pg.fields result) as [|f fields]; cbn [map].
  - cbn. by rewrite app_nil_r.
  - unfold pool_query, Runtime.bind, gets, modify, lift, ret. cbn.
    rewrite <- list_fmap_compose.
    by destruct (database _ _ _ _).
Qed.

(** X20. Executing a query, ad hoc or through a saved tool, touches only
    the database: files, directories, registry and server are as they
    were, and the outgoing calls made are the query itself, followed by
    one type-name query exactly when the query returned a result with at
    least one column.  A saved tool whose input fails validation makes no
    call. *)
Theorem execution_touches_only_the_database
    (query : string) (params : option value)
    (toolConfig : SavedToolConfig) (paramSchema : ZodSchema) (input : value)
    (w : World) :
  let ad_hoc := (ExecuteSqlQuery.handler query params w).2 in
  let saved := (dynamicHandler (DynamicTool toolConfig paramSchema) input w).2 in
  (files ad_hoc = files w /\ dirs ad_hoc = dirs w
   /\ registeredTools ad_hoc = registeredTools w
   /\ server_tools ad_hoc = server_tools w
   /\ calls ad_hoc
      = calls w
        ++ execution_calls w (sql (parseNamedParameters query))
             (mapToPositional (default (Obj []) params)
                (parameterOrder (parseNamedParameters query))))
  /\ (files saved = files w /\ dirs saved = dirs w
      /\ registeredTools saved = registeredTools w
      /\ server_tools saved = server_tools w
      /\ calls saved
         = calls w
           ++ match parse paramSchema input with
              | Valid validated =>
                  execution_calls w (sql_prepared toolConfig)
                    (mapToPositional validated (parameter_order toolConfig))
              | Invalid _ => []
              end).
Proof.
  intros ad_hoc saved. subst ad_hoc saved.
  unfold dynamicHandler, ExecuteSqlQuery.handler, withErrorHandling, async,
    execution_calls.
  split.
  - destruct (parseNamedParameters query) as [prepared order].
    cbn -[stringify getTypeNames mapToPositional].
    unfold pool_query, Runtime.bind, gets, modify, lift.
    cbn -[stringify getTypeNames mapToPositional].
    destruct (database (env w) (calls w) prepared _) as [e|result];
      cbn -[stringify getTypeNames mapToPositional]; [done |].
    match goal with
    | |- context [getTypeNames _ ?w1] =>
        pose proof (getTypeNames_calls result w1) as (Hc & Hf & Hd & Hr & Hs & _);
        destruct (getTypeNames (map Pg.dataTypeID (Pg.fields result)) w1)
          as [[e|names] w2]
    end;
      cbn -[stringify] in *; rewrite Hc, Hf, Hd, Hr, Hs, <- app_assoc; done.
  - cbn -[parse stringify getTypeNames mapToPositional].
    destruct (parse paramSchema input) as [validated|issues];
      cbn -[stringify getTypeNames mapToPositional];
      [|by rewrite app_nil_r].
    unfold pool_query, Runtime.bind, gets, modify, lift.
    cbn -[stringify getTypeNames mapToPositional].
    destruct (database (env w) (calls w) _ _) as [e|result];
      cbn -[stringify getTypeNames mapToPositional]; [done |].
    match goal with
    | |- context [getTypeNames _ ?w1] =>
        pose proof (getTypeNames_calls result w1) as (Hc & Hf & Hd & Hr & Hs & _);
        destruct (getTypeNames (map Pg.dataTypeID (Pg.fields result)) w1)
          as [[e|names] w2]
    end;
      cbn -[stringify] in *; rewrite Hc, Hf, Hd, Hr, Hs, <- app_assoc; done.
Qed.

(* ===================================================================== *)
(** * Further properties of the response envelope                         *)
(* ===================================================================== *)

(** X21. What withErrorHandling writes to the console at its end.  The
    response is either a success, and then the last line written is
    "Finished <operation>"; or it is the error "Error <detail>", and then
    the last two lines are "Finished <operation>" and "Failed <detail>":
    in that order when the function threw, and in the opposite order only
    when the function returned a promise, which then rejected. *)
Theorem withErrorHandling_console (operation : string) (fn : Fn) (w : World) :
  let response := (withErrorHandling operation fn w).1 in
  let lines := console (withErrorHandling operation fn w).2 in
  let finished := "Finished " +:+ operation in
  (isError response = None /\ last lines = Some finished)
  \/ (exists before detail,
        response = {| content := [{| text := "Error " +:+ detail |}];
                      isError := Some true |}
        /\ (lines = before ++ [finished; "Failed " +:+ detail]
            \/ (exists body promise stage w1,
                  fn = Async body
                  /\ run body EmptyString
                       (console_error ("Started " +:+ operation) w)
                     = (inr promise, stage, w1))
               /\ lines = before ++ ["Failed " +:+ detail; finished])).
Proof.
  intros response lines finished. subst response lines finished.
  unfold withErrorHandling.
  destruct fn as [body|body].
  - destruct (run body _ _) as [[[e|result] stage] w1]; cbn.
    + right. eexists _, _. split; [reflexivity |]. left.
      by rewrite <- app_assoc.
    + left. split; [done |]. by rewrite last_snoc.
  - destruct (run body _ _) as [[[e|promise] stage] w1] eqn:Hbody; cbn.
    + right. eexists _, _. split; [reflexivity |]. left.
      by rewrite <- app_assoc.
    + destruct (run promise _ _) as [[[e|result] stage2] w2]; cbn.
      * right. eexists _, _. split; [reflexivity |]. right.
        split; [by eexists _, _, _, _ |]. by rewrite <- app_assoc.
      * left. split; [done |]. by rewrite last_snoc.
Qed.

(* ===================================================================== *)
(** * Properties of the type-name lookup                                  *)
(* ===================================================================== *)

Lemma same_value_eq (a b : value) : same_value a b = true -> a = b.
Proof.
  destruct a as [| |x|x|x|x|x], b as [| |y|y|y|y|y]; try done; cbn.
  - by intros ->%Bool.eqb_prop.
  - destruct x as [x|x], y as [y|y]; try done; cbn.
    + by intros ->%Z.eqb_eq.
    + by intros ->%String.eqb_eq.
  - by intros ->%String.eqb_eq.
Qed.

Lemma Map_get_set (key k v : value) (m : JsMap) :
  Map_get k (Map_set key v m)
  = if same_value key k then v else Map_get k m.
Proof.
  induction m as [|[k1 x] r IH]; cbn; [done |].
  destruct (same_value k1 key) eqn:H1; cbn.
  - apply same_value_eq in H1 as ->. by destruct (same_value key k).
  - rewrite IH. destruct (same_value k1 k) eqn:H2; [|done].
    destruct (same_value key k) eqn:H3; [|done].
    pose proof (same_value_eq _ _ H2) as ->.
    pose proof (same_value_eq _ _ H3) as ->.
    by rewrite H2 in H1.
Qed.

Lemma typeMap_snoc (rows : list value) (row : value) (m : JsMap) :
  fold_left (fun typeMap row => Map_set (get row "oid") (get row "typname") typeMap)
    (rows ++ [row]) m
  = Map_set (get row "oid") (get row "typname")
      (fold_left
         (fun typeMap row => Map_set (get row "oid") (get row "typname") typeMap)
         rows m).
Proof. by rewrite fold_left_app. Qed.

(** X22. getTypeNames asks the database nothing for an empty list of
    oids and returns an empty map.  Otherwise the map it returns binds an
    oid to the typname of the last row the database returned for that oid,
    and leaves an oid without a row undefined. *)
Theorem getTypeNames_last_row_wins (oids : list Z) (oid : Z) (w : World) :
  (oids = [] -> getTypeNames oids w = (inr [], w))
  /\ (forall typeNames,
        (getTypeNames oids w).1 = inr typeNames ->
        oids <> [] ->
        exists result,
          database (env w) (calls w) typeNames_query
            [Arr (map (fun o => Num (Int o)) oids)] = inr result
          /\ Map_get (Num (Int oid)) typeNames
             = match last (rows_of oid (Pg.rows result)) with
               | Some row => get row "typname"
               | None => Undefined
               end).
Proof.
  split; [by intros -> |].
  intros typeNames Hres Hne. unfold getTypeNames in Hres.
  destruct oids as [|o oids]; [done |].
  unfold pool_query, Runtime.bind, gets, modify, lift, ret in Hres.
  cbn in Hres.
  destruct (database _ _ _ _) as [e|result]; cbn in Hres; [done |].
  injection Hres as <-. exists result. split; [done |].
  unfold rows_of.
  induction (Pg.rows result) as [|row rows IH] using rev_ind; [done |].
  rewrite typeMap_snoc, Map_get_set, filter_app, filter_cons, filter_nil.
  destruct (same_value (get row "oid") (Num (Int oid))) eqn:Hrow.
  - rewrite decide_True by done. by rewrite last_snoc.
  - rewrite decide_False by done. by rewrite app_nil_r.
Qed.

Lemma getTypeNames_last_row_wins_witness :
  getTypeNames [] (fresh_world example_env) = (inr [], fresh_world example_env)
  /\ exists result,
       database example_env [] typeNames_query [Arr [Num (Int 23)]] = inr result
       /\ Map_get (Num (Int 23)) [(Num (Int 23), Str "int4")]
          = match last (rows_of 23 (Pg.rows result)) with
            | Some row => get row "typname"
            | None => Undefined
            end.
Proof.
  split.
  - exact (proj1 (getTypeNames_last_row_wins [] 0 (fresh_world example_env))
             eq_refl).
  - apply (proj2 (getTypeNames_last_row_wins [23%Z] 23 (fresh_world example_env))
             [(Num (Int 23), Str "int4")]); [reflexivity | discriminate].
Defined.

(* ===================================================================== *)
(** * Further properties of the schema conversion                         *)
(* ===================================================================== *)



